(** * ML dispatch service: scoring protocol and training/serving lifecycle

    A shallow embedding of the Python sources of the [ml-service]:
    - [scripts/train_model.py]           (module [TrainModel])
    - [app/services/training_service.py] (module [TrainingService])
    - [app/schemas/dispatch_schemas.py]  (module [Schemas])
    - [app/main.py]                      (module [Main])
    and of the model store [app/models/dispatch_model.py] (module
    [DispatchModel]).

    Numbers.  Python floats are modelled by exact rationals extended with
    the three non-finite values that float arithmetic produces instead of
    raising (type [fnum]); rounding error of float64 is not modelled.
    Integers are [Z].

    Effects.  Python code that mutates the global numpy generator and the
    file system is written in a state-and-exception monad over [World];
    an exception leaves the state as it was when it was raised. *)

From Stdlib Require Import QArith Qabs Qminmax Qround ZArith List String Bool Lia Lqa.
From stdpp Require Import gmap strings.
Import ListNotations.

Local Open Scope string_scope.
Local Open Scope Q_scope.

(* ===================================================================== *)
(** * Float values *)
(* ===================================================================== *)

Module Float.

(** A float64 value: a finite number, an infinity or not-a-number. *)
Inductive fnum : Type :=
| Fin (q : Q)
| PInf
| NInf
| NaN.

Definition is_nan (x : fnum) : bool :=
  match x with NaN => true | _ => false end.

Definition is_fin (x : fnum) : bool :=
  match x with Fin _ => true | _ => false end.

Definition fneg (x : fnum) : fnum :=
  match x with
  | Fin q => Fin (- q)
  | PInf => NInf
  | NInf => PInf
  | NaN => NaN
  end.

Definition fadd (x y : fnum) : fnum :=
  match x, y with
  | NaN, _ | _, NaN => NaN
  | Fin a, Fin b => Fin (a + b)
  | PInf, NInf | NInf, PInf => NaN
  | PInf, _ | _, PInf => PInf
  | NInf, _ | _, NInf => NInf
  end.

Definition fsub (x y : fnum) : fnum := fadd x (fneg y).

(** An infinity scaled by a finite factor. *)
Definition inf_times (pos : bool) (b : Q) : fnum :=
  match b ?= 0 with
  | Eq => NaN
  | Gt => if pos then PInf else NInf
  | Lt => if pos then NInf else PInf
  end.

Definition fmul (x y : fnum) : fnum :=
  match x, y with
  | NaN, _ | _, NaN => NaN
  | Fin a, Fin b => Fin (a * b)
  | PInf, Fin b | Fin b, PInf => inf_times true b
  | NInf, Fin b | Fin b, NInf => inf_times false b
  | PInf, PInf | NInf, NInf => PInf
  | PInf, NInf | NInf, PInf => NInf
  end.

(** Float division never raises: a zero divisor gives an infinity, or
    not-a-number when the dividend is zero too.  (A zero that results from
    [x - x] or [x + (-x)] is the positive zero.) *)
Definition fdiv (x y : fnum) : fnum :=
  match x, y with
  | NaN, _ | _, NaN => NaN
  | Fin a, Fin b =>
      if Qeq_bool b 0 then
        match a ?= 0 with Eq => NaN | Gt => PInf | Lt => NInf end
      else Fin (a / b)
  | Fin _, (PInf | NInf) => Fin 0
  | PInf, Fin b => if Qle_bool 0 b then PInf else NInf
  | NInf, Fin b => if Qle_bool 0 b then NInf else PInf
  | (PInf | NInf), (PInf | NInf) => NaN
  end.

(** [numpy.clip]: [minimum (maximum x lo) hi]; not-a-number stays. *)
Definition fclip (lo hi : Q) (x : fnum) : fnum :=
  match x with
  | NaN => NaN
  | PInf => Fin hi
  | NInf => Fin (Qmin lo hi)
  | Fin q => Fin (Qmin (Qmax q lo) hi)
  end.

Definition fmax2 (x y : fnum) : fnum :=
  match x, y with
  | NaN, z | z, NaN => z
  | PInf, _ | _, PInf => PInf
  | NInf, z | z, NInf => z
  | Fin a, Fin b => Fin (Qmax a b)
  end.

Definition fmin2 (x y : fnum) : fnum :=
  match x, y with
  | NaN, z | z, NaN => z
  | NInf, _ | _, NInf => NInf
  | PInf, z | z, PInf => z
  | Fin a, Fin b => Fin (Qmin a b)
  end.

(** [Series.max()] and [Series.min()] of pandas skip not-a-number and give
    not-a-number on an empty series. *)
Definition smax (s : list fnum) : fnum := fold_right fmax2 NaN s.
Definition smin (s : list fnum) : fnum := fold_right fmin2 NaN s.

(** Equality of float values up to the representation of the rational. *)
Definition feq (x y : fnum) : Prop :=
  match x, y with
  | Fin a, Fin b => a == b
  | PInf, PInf | NInf, NInf | NaN, NaN => True
  | _, _ => False
  end.

Definition feqb (x y : fnum) : bool :=
  match x, y with
  | Fin a, Fin b => Qeq_bool a b
  | PInf, PInf | NInf, NInf | NaN, NaN => true
  | _, _ => false
  end.

(** Two series agree entry by entry. *)
Fixpoint series_eqb (s1 s2 : list fnum) : bool :=
  match s1, s2 with
  | [], [] => true
  | x :: s1', y :: s2' => feqb x y && series_eqb s1' s2'
  | _, _ => false
  end.

(** A finite value inside the closed interval [[lo, hi]]. *)
Definition within (lo hi : Q) (x : fnum) : Prop :=
  match x with
  | Fin q => lo <= q /\ q <= hi
  | _ => False
  end.

End Float.
Import Float.

(* ===================================================================== *)
(** * Exceptions and the effect monad *)
(* ===================================================================== *)

(** The exception classes the service distinguishes; all three derive from
    [Exception].  [OtherError] stands for every class that is neither a
    [ValueError] nor a [RuntimeError]. *)
Inductive exn : Type :=
| ValueError (msg : string)
| RuntimeError (msg : string)
| OtherError (msg : string).

(** [str(e)] *)
Definition str (e : exn) : string :=
  match e with
  | ValueError m | RuntimeError m | OtherError m => m
  end.

Inductive outcome (A : Type) : Type :=
| Return (a : A)
| Raise (e : exn).
Arguments Return {A} a.
Arguments Raise {A} e.

Definition is_return {A} (o : outcome A) : bool :=
  match o with Return _ => true | Raise _ => false end.

(** State and exception monad: the state reached when an exception is
    raised is kept. *)
Definition M (S A : Type) : Type := S -> outcome A * S.

Definition ret {S A} (a : A) : M S A := fun s => (Return a, s).
Definition raise {S A} (e : exn) : M S A := fun s => (Raise e, s).
Definition bind {S A B} (m : M S A) (k : A -> M S B) : M S B :=
  fun s =>
    match m s with
    | (Return a, s') => k a s'
    | (Raise e, s') => (Raise e, s')
    end.
Definition get {S} : M S S := fun s => (Return s, s).
Definition modify {S} (f : S -> S) : M S unit := fun s => (Return tt, f s).
(** A pure computation that may raise. *)
Definition lift {S A} (o : outcome A) : M S A := fun s => (o, s).

Declare Scope py_scope.
Delimit Scope py_scope with py.
Notation "'let*' x := m 'in' k" := (bind m (fun x => k))
  (at level 10, x pattern, m at level 100, k at level 200) : py_scope.
Notation "'do*' m 'in' k" := (bind m (fun _ => k))
  (at level 10, m at level 100, k at level 200) : py_scope.

(** [try: body  except Exception as e: handler e] *)
Definition try_except {S A} (body : M S A) (handler : exn -> M S A) : M S A :=
  fun s =>
    match body s with
    | (Return a, s') => (Return a, s')
    | (Raise e, s') => handler e s'
    end.

(** [try: body  finally: final].  The final block runs on every exit of
    the body; the body's result or exception is kept unless the final
    block raises itself. *)
Definition try_finally {S A} (body : M S A) (final : M S unit) : M S A :=
  fun s =>
    match body s with
    | (r, s') =>
        match final s' with
        | (Return _, s'') => (r, s'')
        | (Raise e, s'') => (Raise e, s'')
        end
    end.


(* ===================================================================== *)
(** * External capabilities *)
(* ===================================================================== *)

(** The legacy global generator of numpy: [seed_state s] is the state that
    [np.random.seed(s)] installs; each distribution draws one sample and
    advances the state. *)
Class NumpyRandom : Type := {
  rng : Type;
  seed_state : Z -> rng;
  poisson : Q -> rng -> Z * rng;
  exponential : Q -> rng -> Q * rng;
  normal : Q -> Q -> rng -> Q * rng;
  choice : list Z -> rng -> Z * rng
}.

(** The model's input row, in the column order of [feature_columns]. *)
Definition FeatureVector : Type := list Q.

(** scikit-learn: the split, the random forest and the two metrics.  The
    split and the fit draw from the generator that [random_state] stands
    for (see [with_random_state] below) and hand back the generator as they
    leave it; the other calls depend on their arguments only. *)
Class Sklearn `{NumpyRandom} : Type := {
  Regressor : Type;
  train_test_split :
    list (FeatureVector * fnum) -> Q -> rng ->
    outcome (list (FeatureVector * fnum) * list (FeatureVector * fnum)) * rng;
  rf_fit :
    nat -> list FeatureVector -> list fnum -> rng -> outcome Regressor * rng;
  rf_predict : Regressor -> FeatureVector -> Q;
  mean_absolute_error : list fnum -> list Q -> outcome Q;
  r2_score : list fnum -> list Q -> outcome Q
}.

(** The persisted bundle ([model_data] of [train_model]). *)
Record ModelData `{Sklearn} : Type := {
  md_model : Regressor;
  md_features : list string;
  md_n_estimators : nat;
  md_random_seed : option Z;
  md_training_samples : nat;
  md_test_samples : nat;
  md_mae : Q;
  md_r2 : Q
}.

(** joblib: the byte image of a bundle and its inverse. *)
Class Joblib `{Sklearn} : Type := {
  pickle : ModelData -> list Byte.byte;
  unpickle : list Byte.byte -> option ModelData
}.

(* ===================================================================== *)
(** * scripts/train_model.py *)
(* ===================================================================== *)

Module TrainModel.

(** One row of the training table.  [fatigue_h] is an integer column in the
    generated table; it is held as a rational because the scoring formula
    divides it by [24.0]. *)
Record Row : Type := {
  distance_m : Q;
  past_perf : Q;
  fault_history : Z;
  fatigue_h : Q;
  fault_severity : Z;
  distance_cat : Z
}.

(** A [DataFrame]: all columns share one index, so it is a list of rows. *)
Definition DataFrame : Type := list Row.

(** [dist_cat] *)
Definition dist_cat (m : Q) : Z :=
  if Qlt_le_dec m 1000 then 0%Z
  else if Qlt_le_dec m 5000 then 1%Z
  else 2%Z.

(** [np.clip] on a rational and on an integer. *)
Definition qclip (lo hi q : Q) : Q := Qmin (Qmax q lo) hi.
Definition zclip (lo hi z : Z) : Z := Z.min (Z.max z lo) hi.

(** The frame that [pd.DataFrame({...})] builds from the five drawn columns,
    with [distance_cat] applied to [distance_m]. *)
Fixpoint data_frame (dist perf : list Q) (hist fat sev : list Z) : DataFrame :=
  match dist, perf, hist, fat, sev with
  | d :: dist', p :: perf', h :: hist', f :: fat', s :: sev' =>
      {| distance_m := d; past_perf := p; fault_history := h;
         fatigue_h := inject_Z f; fault_severity := s;
         distance_cat := dist_cat d |}
      :: data_frame dist' perf' hist' fat' sev'
  | _, _, _, _, _ => []
  end.

Definition feature_columns : list string :=
  ["distance_m"; "distance_cat"; "past_perf"; "fault_history";
   "fatigue_h"; "fault_severity"].

(** [df[feature_columns]], row by row. *)
Definition features_of (r : Row) : FeatureVector :=
  [distance_m r; inject_Z (distance_cat r); past_perf r;
   inject_Z (fault_history r); fatigue_h r; inject_Z (fault_severity r)].

(** ** [calculate_rule_based_score] *)

Definition eps : Q := 1 # 1000000.

Definition distance_col (df : DataFrame) : list fnum :=
  map (fun r => Fin (distance_m r)) df.
Definition history_col (df : DataFrame) : list fnum :=
  map (fun r => Fin (inject_Z (fault_history r))) df.

(** [1 - df['distance_m'] / (df['distance_m'].max() + 1e-6)], clipped *)
Definition dist_score (df : DataFrame) (r : Row) : fnum :=
  fclip 0 1
    (fsub (Fin 1)
       (fdiv (Fin (distance_m r)) (fadd (smax (distance_col df)) (Fin eps)))).

(** [df['fault_history'] / (df['fault_history'].max() + 1e-6)], clipped *)
Definition fh_score (df : DataFrame) (r : Row) : fnum :=
  fclip 0 1
    (fdiv (Fin (inject_Z (fault_history r)))
       (fadd (smax (history_col df)) (Fin eps))).

(** [1 - (df['fatigue_h'] / 24.0)], clipped *)
Definition fatigue_score (r : Row) : fnum :=
  fclip 0 1 (fsub (Fin 1) (fdiv (Fin (fatigue_h r)) (Fin 24))).

Definition severity_score (r : Row) : fnum :=
  fdiv (Fin (inject_Z (fault_severity r))) (Fin 3).

Definition perf_score (r : Row) : fnum :=
  fdiv (Fin (past_perf r)) (Fin 10).

Definition w_distance : Q := 45 # 100.
Definition w_fault_history : Q := 25 # 100.
Definition w_fatigue : Q := 15 # 100.
Definition w_severity : Q := 5 # 100.
Definition w_perf : Q := 10 # 100.

(** The weighted sum of one row. *)
Definition rule_score (df : DataFrame) (r : Row) : fnum :=
  fadd (fadd (fadd (fadd
    (fmul (Fin w_distance) (dist_score df r))
    (fmul (Fin w_fault_history) (fh_score df r)))
    (fmul (Fin w_fatigue) (fatigue_score r)))
    (fmul (Fin w_severity) (severity_score r)))
    (fmul (Fin w_perf) (perf_score r)).

Definition rule_scores (df : DataFrame) : list fnum :=
  map (rule_score df) df.

(** [(rule_score - rule_score.min()) / (rule_score.max() - rule_score.min()) * 100] *)
Definition normalize (mn mx x : fnum) : fnum :=
  fmul (fdiv (fsub x mn) (fsub mx mn)) (Fin 100).

Definition calculate_rule_based_score (df : DataFrame) : list fnum :=
  let rs := rule_scores df in
  map (normalize (smin rs) (smax rs)) rs.

(** ** The label as the specification words it: the plain maxima in the
    two denominators. *)

Definition spec_dist_score (df : DataFrame) (r : Row) : fnum :=
  fclip 0 1
    (fsub (Fin 1) (fdiv (Fin (distance_m r)) (smax (distance_col df)))).

Definition spec_fh_score (df : DataFrame) (r : Row) : fnum :=
  fclip 0 1
    (fdiv (Fin (inject_Z (fault_history r))) (smax (history_col df))).

Definition spec_rule_score (df : DataFrame) (r : Row) : fnum :=
  fadd (fadd (fadd (fadd
    (fmul (Fin w_distance) (spec_dist_score df r))
    (fmul (Fin w_fault_history) (spec_fh_score df r)))
    (fmul (Fin w_fatigue) (fatigue_score r)))
    (fmul (Fin w_severity) (severity_score r)))
    (fmul (Fin w_perf) (perf_score r)).

Definition spec_rule_label (df : DataFrame) : list fnum :=
  let rs := map (spec_rule_score df) df in
  map (normalize (smin rs) (smax rs)) rs.

(** The label as the specification states it: the formula with the plain
    maxima, and every label a number in [[0, 100]]. *)
Definition label_as_specified (df : DataFrame) : Prop :=
  Forall2 feq (calculate_rule_based_score df) (spec_rule_label df) /\
  Forall (within 0 100) (calculate_rule_based_score df).

(** ** The same weighted sum in plain rational arithmetic *)

Fixpoint qmaxl (x : Q) (l : list Q) : Q :=
  match l with
  | [] => x
  | y :: l' => Qmax x (qmaxl y l')
  end.

Fixpoint qminl (x : Q) (l : list Q) : Q :=
  match l with
  | [] => x
  | y :: l' => Qmin x (qminl y l')
  end.

Definition qmax_of (l : list Q) : Q :=
  match l with [] => 0 | x :: l' => qmaxl x l' end.
Definition qmin_of (l : list Q) : Q :=
  match l with [] => 0 | x :: l' => qminl x l' end.

Definition max_distance (df : DataFrame) : Q := qmax_of (map distance_m df).
Definition max_history (df : DataFrame) : Q :=
  qmax_of (map (fun r => inject_Z (fault_history r)) df).

Definition q_dist_score (df : DataFrame) (r : Row) : Q :=
  qclip 0 1 (1 - distance_m r / (max_distance df + eps)).
Definition q_fh_score (df : DataFrame) (r : Row) : Q :=
  qclip 0 1 (inject_Z (fault_history r) / (max_history df + eps)).
Definition q_fatigue_score (r : Row) : Q :=
  qclip 0 1 (1 - fatigue_h r / 24).
Definition q_severity_score (r : Row) : Q := inject_Z (fault_severity r) / 3.
Definition q_perf_score (r : Row) : Q := past_perf r / 10.

Definition q_rule_score (df : DataFrame) (r : Row) : Q :=
  w_distance * q_dist_score df r
  + w_fault_history * q_fh_score df r
  + w_fatigue * q_fatigue_score r
  + w_severity * q_severity_score r
  + w_perf * q_perf_score r.

Definition q_rule_min (df : DataFrame) : Q := qmin_of (map (q_rule_score df) df).
Definition q_rule_max (df : DataFrame) : Q := qmax_of (map (q_rule_score df) df).

Definition q_label (df : DataFrame) (r : Row) : Q :=
  (q_rule_score df r - q_rule_min df) / (q_rule_max df - q_rule_min df) * 100.

(** ** [generate_synthetic_data] and [train_model] *)

Section Trainer.
Context `{NR : NumpyRandom} `{SK : !Sklearn} `{JL : !Joblib}.

(** What the script reads and writes: the global generator of numpy, the
    entropy of the operating system ([os_entropy w k] is the generator
    state that the [k]-th reseeding from the system would install), the
    files and the directories. *)
Record World : Type := {
  np_random : rng;
  os_entropy : nat -> rng;
  disk : gmap string (list Byte.byte);
  dirs : gset string
}.

Definition set_np_random (g : rng) (w : World) : World :=
  {| np_random := g; os_entropy := os_entropy w;
     disk := disk w; dirs := dirs w |}.
Definition set_disk (d : gmap string (list Byte.byte)) (w : World) : World :=
  {| np_random := np_random w; os_entropy := os_entropy w;
     disk := d; dirs := dirs w |}.
Definition set_dirs (ds : gset string) (w : World) : World :=
  {| np_random := np_random w; os_entropy := os_entropy w;
     disk := disk w; dirs := ds |}.

(** The seeds numpy accepts: [[0, 2**32 - 1]]. *)
Definition seed_in_range (s : Z) : bool := ((0 <=? s) && (s <? 2 ^ 32))%Z.

(** Reseeding from the system: the next state of the entropy is installed
    and used up. *)
Definition reseed_from_system (w : World) : World :=
  {| np_random := os_entropy w 0;
     os_entropy := fun k => os_entropy w (S k);
     disk := disk w; dirs := dirs w |}.

(** [np.random.seed(s)]: an integer outside [[0, 2**32 - 1]] is refused;
    [None] reseeds from the system. *)
Definition np_random_seed (s : option Z) : M World unit :=
  match s with
  | Some s =>
      if seed_in_range s
      then modify (set_np_random (seed_state s))
      else raise (ValueError "Seed must be between 0 and 2**32 - 1")
  | None => modify reseed_from_system
  end.

(** The world once [np.random.seed(s)] has returned. *)
Definition seeded (s : option Z) (w : World) : World :=
  match s with
  | Some s => set_np_random (seed_state s) w
  | None => reseed_from_system w
  end.

(** [check_random_state(random_state)] of scikit-learn around a call that
    draws: an integer gives the call a generator of its own, seeded like
    numpy's and dropped afterwards; [None] is numpy's global generator,
    which the call advances. *)
Definition with_random_state {A : Type} (random_state : option Z)
    (call : rng -> outcome A * rng) : M World A :=
  match random_state with
  | Some s =>
      if seed_in_range s
      then lift (fst (call (seed_state s)))
      else raise (ValueError "Seed must be between 0 and 2**32 - 1")
  | None =>
      fun w => let (r, g) := call (np_random w) in (r, set_np_random g w)
  end.

Fixpoint sample {A : Type} (draw : rng -> A * rng) (n : nat) (g : rng)
  : list A * rng :=
  match n with
  | O => ([], g)
  | S k =>
      let (x, g1) := draw g in
      let (xs, g2) := sample draw k g1 in
      (x :: xs, g2)
  end.

(** A draw with [size=n] from the global generator. *)
Definition draw_size {A : Type} (draw : rng -> A * rng) (n : Z)
  : M World (list A) :=
  fun w =>
    if (n <? 0)%Z
    then (Raise (ValueError "negative dimensions are not allowed"), w)
    else
      let (xs, g) := sample draw (Z.to_nat n) (np_random w) in
      (Return xs, set_np_random g w).

Definition generate_synthetic_data (n : Z) (random_seed : option Z)
  : M World DataFrame :=
  (do* np_random_seed random_seed in
   let* faults_today := draw_size (poisson 3) n in
   let* dist := draw_size (exponential 2000) n in
   let* perf := draw_size (normal 7 (15 # 10)) n in
   let* hist := draw_size (poisson 1) n in
   let fat := map (fun f => zclip 0 24 (f * 2)) faults_today in
   let* sev := draw_size (choice [1; 2; 3]%Z) n in
   ret (data_frame dist (map (qclip 1 10) perf) hist fat sev))%py.

(** The dictionary that [train_model] returns. *)
Record TrainOutput : Type := {
  out_model : Regressor;
  out_features : list string;
  out_mae : Q;
  out_r2 : Q;
  out_model_path : string
}.

(** [Path(__file__).parent.parent / 'models' / 'dispatch_ml_model.pkl'],
    relative to the service's directory. *)
Definition default_model_path : string := "models/dispatch_ml_model.pkl".

(** [Path.mkdir(parents=True, exist_ok=True)] on the parent of the path;
    [dir_chain p] is that directory with all its ancestors.  An [OSError]
    of the file system is not modelled, here and in [joblib_dump]: what is
    proved below of a run that raises concerns the exceptions raised before
    the first access to the file system. *)
Definition mkdir_parents (dir_chain : string -> list string) (p : string)
  : M World unit :=
  modify (fun w => set_dirs (dirs w ∪ list_to_set (dir_chain p)) w).

(** [joblib.dump(model_data, model_path)] opens the file at the path itself
    for writing and streams the bytes into it.  [dump_states] lists the disk
    after the file is opened and after each further byte: the contents a
    reader of the path can find while the dump runs. *)
Definition dump_states (bytes : list Byte.byte) (p : string)
    (d : gmap string (list Byte.byte)) : list (gmap string (list Byte.byte)) :=
  map (fun k => <[p := firstn k bytes]> d) (seq 0 (S (length bytes))).

Definition joblib_dump (md : ModelData) (p : string) : M World unit :=
  modify (fun w =>
    set_disk (List.last (dump_states (pickle md) p (disk w)) (disk w)) w).

(** What [train_model] has computed when the model is evaluated. *)
Record Evaluation : Type := {
  ev_model : Regressor;
  ev_training_samples : nat;
  ev_test_samples : nat;
  ev_mae : Q;
  ev_r2 : Q
}.

(** The first part of [train_model], up to the evaluation: generation,
    labels, split, fit and the two metrics.  It touches no file and no
    directory. *)
Definition train_model_evaluate (n_samples : Z) (random_seed : option Z)
  : M World Evaluation :=
  (let* df := generate_synthetic_data n_samples random_seed in
   let y := calculate_rule_based_score df in
   let X := map features_of df in
   let* parts :=
     with_random_state random_seed (train_test_split (combine X y) (2 # 10)) in
   let train := fst parts in
   let test := snd parts in
   let* ml_model :=
     with_random_state random_seed
       (rf_fit 200 (map fst train) (map snd train)) in
   let preds := map (rf_predict ml_model) (map fst test) in
   let* mae := lift (mean_absolute_error (map snd test) preds) in
   let* r2 := lift (r2_score (map snd test) preds) in
   ret {| ev_model := ml_model;
          ev_training_samples := length train;
          ev_test_samples := length test;
          ev_mae := mae; ev_r2 := r2 |})%py.

(** The dictionary [model_data] that [train_model] builds from it. *)
Definition bundle_of (random_seed : option Z) (ev : Evaluation) : ModelData :=
  {| md_model := ev_model ev; md_features := feature_columns;
     md_n_estimators := 200; md_random_seed := random_seed;
     md_training_samples := ev_training_samples ev;
     md_test_samples := ev_test_samples ev;
     md_mae := ev_mae ev; md_r2 := ev_r2 ev |}.

(** Everything [train_model] does before the dump.  The path is kept as
    the string it was given; that [Path] may write the same path in another
    way (without a leading [./], for one) is not modelled. *)
Definition train_model_fit (dir_chain : string -> list string)
    (n_samples : Z) (random_seed : option Z) (model_path : option string)
  : M World (ModelData * string) :=
  (let* ev := train_model_evaluate n_samples random_seed in
   let path := match model_path with
               | None => default_model_path
               | Some p => p
               end in
   do* mkdir_parents dir_chain path in
   ret (bundle_of random_seed ev, path))%py.

Definition train_model (dir_chain : string -> list string)
    (n_samples : Z) (random_seed : option Z) (model_path : option string)
  : M World TrainOutput :=
  (let* fitted := train_model_fit dir_chain n_samples random_seed model_path in
   let md := fst fitted in
   let path := snd fitted in
   do* joblib_dump md path in
   ret {| out_model := md_model md; out_features := md_features md;
          out_mae := md_mae md; out_r2 := md_r2 md;
          out_model_path := path |})%py.

(** The disks a concurrent reader can find while [train_model] runs from
    [w]: the one it starts with and, once the model is fitted, those of the
    dump. *)
Definition train_model_disks (dir_chain : string -> list string)
    (n_samples : Z) (random_seed : option Z) (model_path : option string)
    (w : World)
  : list (gmap string (list Byte.byte)) :=
  match train_model_fit dir_chain n_samples random_seed model_path w with
  | (Return (md, path), w1) => disk w :: dump_states (pickle md) path (disk w1)
  | (Raise _, _) => [disk w]
  end.



(** ** Predicates on computations over the world *)

(** The computation leaves every file as it found it. *)
Definition keeps_disk {A : Type} (m : M World A) : Prop :=
  forall w, disk (snd (m w)) = disk w.

(** The computation creates no directory. *)
Definition keeps_dirs {A : Type} (m : M World A) : Prop :=
  forall w, dirs (snd (m w)) = dirs w.

(** The outcome and the generator left behind depend on the world through
    the state of the generator only. *)
Definition generator_only {A : Type} (m : M World A) : Prop :=
  forall w1 w2, np_random w1 = np_random w2 ->
    fst (m w1) = fst (m w2) /\
    np_random (snd (m w1)) = np_random (snd (m w2)).


(** The seeds with which [np.random.seed] returns. *)
Definition valid_seed (seed : option Z) : Prop :=
  match seed with
  | Some s => (0 <= s < 2 ^ 32)%Z
  | None => True
  end.


(** The path [train_model] writes to. *)
Definition resolved_path (model_path : option string) : string :=
  match model_path with
  | None => default_model_path
  | Some p => p
  end.

(** Persistence as the specification words it: whatever disk a concurrent
    reader finds while [train_model] runs, the artifact path holds the
    complete old content or the complete content of the finished run. *)
Definition persist_atomic (dir_chain : string -> list string)
    (n_samples : Z) (random_seed : option Z) (model_path : option string)
    (w : World)
  : Prop :=
  let p := resolved_path model_path in
  let final := disk (snd (train_model dir_chain n_samples random_seed model_path w)) in
  forall d, In d (train_model_disks dir_chain n_samples random_seed model_path w) ->
    (d !! p) = (disk w !! p) \/ (d !! p) = (final !! p).

End Trainer.

End TrainModel.

Import TrainModel.

(** Run a computation on one component of a larger state. *)
Definition zoom {S T A : Type} (proj : S -> T) (upd : T -> S -> S) (m : M T A)
  : M S A :=
  fun s => let (r, t') := m (proj s) in (r, upd t' s).

(* ===================================================================== *)
(** * app/services/training_service.py *)
(* ===================================================================== *)

Module TrainingService.

Record t : Type := {
  model_path : option string;
  _training_in_progress : bool
}.

(** [TrainingService(model_path)] *)
Definition init (model_path : option string) : t :=
  {| model_path := model_path; _training_in_progress := false |}.

Definition set_training_in_progress (b : bool) (self : t) : t :=
  {| model_path := model_path self; _training_in_progress := b |}.

(** [is_training] *)
Definition is_training (self : t) : bool := _training_in_progress self.

(** The dictionary [train] returns; [success] is its ['success'] entry. *)
Inductive TrainingResult : Type :=
| TrainSucceeded (mae r2 : Q) (model_path : string) (features : list string)
    (n_samples : Z) (random_seed : option Z)
| TrainFailed (error : string).

Definition success (r : TrainingResult) : bool :=
  match r with TrainSucceeded _ _ _ _ _ _ => true | TrainFailed _ => false end.

Section Service.
Context `{NR : NumpyRandom} `{SK : !Sklearn} `{JL : !Joblib}.
Variable dir_chain : string -> list string.

(** The service object together with what the trainer touches. *)
Definition State : Type := (t * World)%type.

Definition on_self (f : t -> t) : M State unit :=
  modify (fun s => (f (fst s), snd s)).

Definition on_world {A : Type} (m : M World A) : M State A :=
  zoom snd (fun w s => (fst s, w)) m.

(** [train] *)
Definition train (n_samples : Z) (random_seed : option Z)
  : M State TrainingResult :=
  (let* s := get in
   if _training_in_progress (fst s)
   then raise (RuntimeError "Training already in progress")
   else
     try_finally
       (try_except
          (do* on_self (set_training_in_progress true) in
           let* result :=
             on_world (train_model dir_chain n_samples random_seed
                         (model_path (fst s))) in
           ret (TrainSucceeded (out_mae result) (out_r2 result)
                  (out_model_path result) (out_features result)
                  n_samples random_seed))
          (fun e => ret (TrainFailed (str e))))
       (on_self (set_training_in_progress false)))%py.

End Service.

(** ** Callers that run [train] at the same time

    The statements of [train] that read or write the flag, one step each,
    for callers that share one service object.  The method holds no lock:
    which caller takes the next step is decided by what runs the callers.
    [run_schedule] takes any order of steps; the orders that the service
    meets are those of [serial] below. *)

Inductive Pc : Type :=
| PcCheck        (* before [if self._training_in_progress] *)
| PcSet          (* check passed, before [self._training_in_progress = True] *)
| PcTrainModel   (* flag set, [train_model_func] running *)
| PcFinally      (* before [self._training_in_progress = False] *)
| PcReturned     (* returned a result dictionary *)
| PcRaised.      (* raised [RuntimeError("Training already in progress")] *)

Definition step_caller (flag : bool) (p : Pc) : bool * Pc :=
  match p with
  | PcCheck => if flag then (flag, PcRaised) else (flag, PcSet)
  | PcSet => (true, PcTrainModel)
  | PcTrainModel => (flag, PcFinally)
  | PcFinally => (false, PcReturned)
  | PcReturned => (flag, PcReturned)
  | PcRaised => (flag, PcRaised)
  end.

(** The shared flag and the position of every caller. *)
Definition Sys : Type := (bool * list Pc)%type.

(** Caller [i] takes its next step. *)
Definition step_sys (i : nat) (s : Sys) : Sys :=
  match snd s !! i with
  | Some p =>
      let (flag', p') := step_caller (fst s) p in
      (flag', <[i := p']> (snd s))
  | None => s
  end.

Definition run_schedule (sched : list nat) (s : Sys) : Sys :=
  fold_left (fun s i => step_sys i s) sched s.

(** A caller that has set the flag and not yet cleared it. *)
Definition holds_flag (p : Pc) : bool :=
  match p with
  | PcTrainModel | PcFinally => true
  | _ => false
  end.

(** A caller whose call is over. *)
Definition finished (p : Pc) : bool :=
  match p with
  | PcReturned | PcRaised => true
  | _ => false
  end.

(** Whenever the flag is set, some caller has set it and not cleared it. *)
Definition flag_is_held (s : Sys) : Prop :=
  fst s = true -> exists i p, snd s !! i = Some p /\ holds_flag p = true.



(** One whole call of caller [i], with no step of another caller inside,
    and a schedule in which the calls of [order] follow one another.  These
    are the schedules of the event loop: the only caller of [train] is the
    handler of [POST /api/train], an [async def] that calls [train] as an
    ordinary method, and neither of the two contains an [await]; so the
    loop runs a call from its check to its return before it starts the
    handler of another request, and no thread is started anywhere. *)
Definition call (i : nat) : list nat := [i; i; i; i].



End TrainingService.

(* ===================================================================== *)
(** * app/schemas/dispatch_schemas.py *)
(* ===================================================================== *)

Module Schemas.

(** A candidate as the request body carries it: every field present and of
    its declared type, its value not yet checked against the bounds. *)
Record CandidateRequest : Type := {
  distance_m : Q;
  distance_cat : Z;
  past_perf : Q;
  fault_history : Z;
  fatigue_h : Q;
  fault_severity : Z
}.

(** [Field(..., ge=lo, le=hi)]; an absent bound is [None]. *)
Record FieldInfo : Type := {
  field_name : string;
  field_value : CandidateRequest -> Q;
  field_ge : option Q;
  field_le : option Q
}.

Definition candidate_fields : list FieldInfo :=
  [ {| field_name := "distance_m"; field_value := distance_m;
       field_ge := Some 0; field_le := None |};
    {| field_name := "distance_cat";
       field_value := fun c => inject_Z (distance_cat c);
       field_ge := Some 0; field_le := Some 2 |};
    {| field_name := "past_perf"; field_value := past_perf;
       field_ge := Some 1; field_le := Some 10 |};
    {| field_name := "fault_history";
       field_value := fun c => inject_Z (fault_history c);
       field_ge := Some 0; field_le := None |};
    {| field_name := "fatigue_h"; field_value := fatigue_h;
       field_ge := Some 0; field_le := Some 24 |};
    {| field_name := "fault_severity";
       field_value := fun c => inject_Z (fault_severity c);
       field_ge := Some 1; field_le := Some 3 |} ].

Definition ge_ok (b : option Q) (v : Q) : bool :=
  match b with Some lo => Qle_bool lo v | None => true end.
Definition le_ok (b : option Q) (v : Q) : bool :=
  match b with Some hi => Qle_bool v hi | None => true end.

Definition field_ok (f : FieldInfo) (c : CandidateRequest) : bool :=
  ge_ok (field_ge f) (field_value f c) && le_ok (field_le f) (field_value f c).

(** Where a validation error sits in the body: the list itself, or a field
    of the candidate at an index. *)
Inductive Loc : Type :=
| LocCandidates
| LocField (index : nat) (field : string).

(** The fields of one candidate that break their bounds. *)
Definition validate_candidate (c : CandidateRequest) : list string :=
  map field_name (filter (fun f => field_ok f c = false) candidate_fields).

Fixpoint validate_items (i : nat) (cs : list CandidateRequest) : list Loc :=
  match cs with
  | [] => []
  | c :: cs' => map (LocField i) (validate_candidate c) ++ validate_items (S i) cs'
  end.

(** [PredictRequest]: every candidate within bounds, and [min_items=1]. *)
Definition validate_predict_request (cs : list CandidateRequest) : list Loc :=
  (if Nat.eqb (length cs) 0 then [LocCandidates] else [])
  ++ validate_items 0 cs.

(** [candidate.dict()] *)
Definition dict (c : CandidateRequest) : gmap string Q :=
  list_to_map (map (fun f => (field_name f, field_value f c)) candidate_fields).

(** The values of a candidate in the column order that [train_model]
    records in the artifact. *)
Definition feature_vector (c : CandidateRequest) : FeatureVector :=
  [distance_m c; inject_Z (distance_cat c); past_perf c;
   inject_Z (fault_history c); fatigue_h c; inject_Z (fault_severity c)].

(** The documented bounds, field by field: [Offending name c] when the
    value of field [name] of [c] lies outside them. *)
Inductive Offending : string -> CandidateRequest -> Prop :=
| distance_m_negative c :
    distance_m c < 0 -> Offending "distance_m" c
| distance_cat_below c :
    (distance_cat c < 0)%Z -> Offending "distance_cat" c
| distance_cat_above c :
    (2 < distance_cat c)%Z -> Offending "distance_cat" c
| past_perf_below c :
    past_perf c < 1 -> Offending "past_perf" c
| past_perf_above c :
    10 < past_perf c -> Offending "past_perf" c
| fault_history_negative c :
    (fault_history c < 0)%Z -> Offending "fault_history" c
| fatigue_h_below c :
    fatigue_h c < 0 -> Offending "fatigue_h" c
| fatigue_h_above c :
    24 < fatigue_h c -> Offending "fatigue_h" c
| fault_severity_below c :
    (fault_severity c < 1)%Z -> Offending "fault_severity" c
| fault_severity_above c :
    (3 < fault_severity c)%Z -> Offending "fault_severity" c.

(** [PredictionResult] and [PredictResponse] *)
Record PredictionResult : Type := {
  index : nat;
  score : Q;
  features : list (string * Q)
}.

Record PredictResponse : Type := {
  best_index : nat;
  scores : list Q;
  predictions : list PredictionResult
}.

(** [TrainRequest], with the defaults filled in for absent fields.
    [random_seed] is [Optional[int]]: a body may carry an explicit [null],
    which stays [None].  [n_samples] is the integer of the body. *)
Record TrainRequest : Type := {
  n_samples : Z;
  random_seed : option Z
}.

(** [TrainRequest]: [n_samples] is declared with [ge=100, le=100000];
    [random_seed] is declared without bounds.  The fields that break their
    bounds. *)
Definition validate_train_request (r : TrainRequest) : list string :=
  if ((100 <=? n_samples r) && (n_samples r <=? 100000))%Z
  then []
  else ["n_samples"].

End Schemas.

(* ===================================================================== *)
(** * app/models/dispatch_model.py *)
(* ===================================================================== *)

Module DispatchModel.

Section Store.
Context `{NR : NumpyRandom} `{SK : !Sklearn} `{JL : !Joblib}.

(** Modelled from the spec: the state of the model store, whose source file
    [app/models/dispatch_model.py] is not available; section 3, "Model Store
    state: one of NotLoaded, Loaded(artifact), LoadFailed(error)". *)
Inductive StoreState : Type :=
| NotLoaded
| Loaded (artifact : ModelData)
| LoadFailed (error : string).

Record t : Type := {
  model_path : string;
  state : StoreState
}.

(** Modelled from the spec: [get_model(path, reset=True)] of the missing
    model store gives a store for the path that has nothing loaded. *)
Definition get_model (path : option string) : t :=
  {| model_path := match path with
                   | Some p => p
                   | None => default_model_path
                   end;
     state := NotLoaded |}.

(** Modelled from the spec: [is_loaded] of the missing model store, section
    4.4, "true iff state is Loaded". *)
Definition is_loaded (self : t) : bool :=
  match state self with Loaded _ => true | _ => false end.

(** Modelled from the spec: [load] of the missing model store, section 4.4:
    a no-op returning true when loaded and not forced; otherwise it reads
    the artifact at the configured path and moves to [Loaded], or to
    [LoadFailed] on a missing or undecodable file, without raising. *)
Definition load (force_reload : bool) (self : t) (w : World) : bool * t :=
  if is_loaded self && negb force_reload then (true, self)
  else
    match disk w !! model_path self with
    | None =>
        (false, {| model_path := model_path self;
                   state := LoadFailed "Model file not found" |})
    | Some bytes =>
        match unpickle bytes with
        | Some md =>
            (true, {| model_path := model_path self; state := Loaded md |})
        | None =>
            (false, {| model_path := model_path self;
                       state := LoadFailed "Model file cannot be read" |})
        end
    end.

(** Modelled from the spec: the feature encoder of the missing model store,
    section 4.1: the candidate's values in the order of the artifact's
    [features]; a missing field is a schema mismatch. *)
Definition encode (features : list string) (candidate : gmap string Q)
  : option FeatureVector :=
  mapM (fun f => candidate !! f) features.

(** Index of the maximum, the lowest one among ties ([numpy.argmax]). *)
Fixpoint argmax_from (best_i : nat) (best : Q) (i : nat) (l : list Q) : nat :=
  match l with
  | [] => best_i
  | x :: l' =>
      if Qlt_le_dec best x
      then argmax_from i x (S i) l'
      else argmax_from best_i best (S i) l'
  end.

Definition argmax (l : list Q) : nat :=
  match l with
  | [] => 0%nat
  | x :: l' => argmax_from 0 x 1 l'
  end.

Definition ModelUnavailableError : exn := RuntimeError "Model not loaded".
Definition SchemaMismatchError : exn := OtherError "SchemaMismatchError".

(** Modelled from the spec: [predict] of the missing model store, section
    4.4: [ModelUnavailableError] unless loaded; otherwise the candidates are
    encoded, scored by the regressor, and the result is the index of the
    maximum score (lowest index on ties), the raw scores in input order
    and, per candidate, its index, score and encoded features.  The
    handler of [main.py] reports the unavailable model from its
    [except RuntimeError] branch, so the error is a [RuntimeError]. *)
Definition predict (self : t) (candidates : list (gmap string Q))
  : outcome (nat * list Q * list Schemas.PredictionResult) :=
  match state self with
  | Loaded art =>
      match mapM (encode (md_features art)) candidates with
      | None => Raise SchemaMismatchError
      | Some X =>
          match X with
          | [] => Raise (ValueError "attempt to get argmax of an empty sequence")
          | _ =>
              let scores := map (rf_predict (md_model art)) X in
              let details :=
                map (fun ixs : nat * (FeatureVector * Q) =>
                       {| Schemas.index := fst ixs;
                          Schemas.score := snd (snd ixs);
                          Schemas.features :=
                            combine (md_features art) (fst (snd ixs)) |})
                    (combine (seq 0 (length X)) (combine X scores)) in
              Return (argmax scores, scores, details)
          end
      end
  | _ => Raise ModelUnavailableError
  end.

End Store.

End DispatchModel.

(* ===================================================================== *)
(** * app/main.py *)
(* ===================================================================== *)

Module Main.

(** What a request ends in: the response body, an [HTTPException] raised by
    the handler, or the rejection of the body by the request validation
    that runs before the handler is entered. *)
Inductive Response (A : Type) : Type :=
| Ok (body : A)
| HTTPException (status_code : Z) (detail : string)
| RequestValidationError (errors : list Schemas.Loc).
Arguments Ok {A} body.
Arguments HTTPException {A} status_code detail.
Arguments RequestValidationError {A} errors.

Definition HTTP_400_BAD_REQUEST : Z := 400.
Definition HTTP_409_CONFLICT : Z := 409.
Definition HTTP_422_UNPROCESSABLE_ENTITY : Z := 422.
Definition HTTP_500_INTERNAL_SERVER_ERROR : Z := 500.
Definition HTTP_503_SERVICE_UNAVAILABLE : Z := 503.

Definition status_of {A : Type} (r : Response A) : Z :=
  match r with
  | Ok _ => 200
  | HTTPException c _ => c
  | RequestValidationError _ => HTTP_422_UNPROCESSABLE_ENTITY
  end.

Definition is_client_error (code : Z) : bool := ((400 <=? code) && (code <? 500))%Z.
Definition is_server_error (code : Z) : bool := ((500 <=? code) && (code <? 600))%Z.

(** Nearest integer, ties to the even one. *)
Definition round_half_even (q : Q) : Z :=
  let f := Qfloor q in
  match Qcompare (q - inject_Z f) (1 # 2) with
  | Lt => f
  | Gt => (f + 1)%Z
  | Eq => if Z.even f then f else (f + 1)%Z
  end.

(** [round(score, 2)] *)
Definition round2 (q : Q) : Q := inject_Z (round_half_even (q * 100)) / 100.

Section Handlers.
Context `{NR : NumpyRandom} `{SK : !Sklearn} `{JL : !Joblib}.
Variable dir_chain : string -> list string.

(** The module-level state of the application. *)
Record App : Type := {
  MODEL_PATH : option string;
  model : DispatchModel.t;
  training_service : TrainingService.t;
  world : World
}.

(** The body of the [predict] handler. *)
Definition predict (model : DispatchModel.t)
    (request : list Schemas.CandidateRequest)
  : Response Schemas.PredictResponse :=
  let candidates := map Schemas.dict request in
  match DispatchModel.predict model candidates with
  | Return (best_idx, scores, predictions) =>
      Ok {| Schemas.best_index := best_idx;
            Schemas.scores := map round2 scores;
            Schemas.predictions := predictions |}
  | Raise (ValueError m) => HTTPException HTTP_400_BAD_REQUEST m
  | Raise (RuntimeError m) =>
      HTTPException HTTP_503_SERVICE_UNAVAILABLE ("Model not available: " ++ m)
  | Raise (OtherError m) =>
      HTTPException HTTP_500_INTERNAL_SERVER_ERROR ("Prediction failed: " ++ m)
  end.

(** [POST /api/predict]: the body is validated against [PredictRequest]
    before the handler runs. *)
Definition api_predict (model : DispatchModel.t)
    (body : list Schemas.CandidateRequest)
  : Response Schemas.PredictResponse :=
  match Schemas.validate_predict_request body with
  | [] => predict model body
  | errors => RequestValidationError errors
  end.

(** The [train] handler. *)
Definition train (request : Schemas.TrainRequest) (app : App)
  : Response TrainingService.TrainingResult * App :=
  if TrainingService.is_training (training_service app)
  then (HTTPException HTTP_409_CONFLICT "Training already in progress", app)
  else
    match TrainingService.train dir_chain
            (Schemas.n_samples request) (Schemas.random_seed request)
            (training_service app, world app) with
    | (r, (svc, w)) =>
        let app1 := {| MODEL_PATH := MODEL_PATH app; model := model app;
                       training_service := svc; world := w |} in
        match r with
        | Return result =>
            if TrainingService.success result then
              let fresh := DispatchModel.get_model (MODEL_PATH app) in
              let reloaded := snd (DispatchModel.load true fresh w) in
              (Ok result,
               {| MODEL_PATH := MODEL_PATH app; model := reloaded;
                  training_service := svc; world := w |})
            else
              (HTTPException HTTP_500_INTERNAL_SERVER_ERROR
                 match result with
                 | TrainingService.TrainFailed e => e
                 | _ => "Training failed"
                 end, app1)
        | Raise e =>
            (HTTPException HTTP_500_INTERNAL_SERVER_ERROR
               ("Training failed: " ++ str e), app1)
        end
    end.

(** [POST /api/train]: the body is validated against [TrainRequest]
    before the handler runs; a rejected body ([inl], status 422) leaves the
    application as it is. *)
Definition api_train (request : Schemas.TrainRequest) (app : App)
  : (list string + Response TrainingService.TrainingResult) * App :=
  match Schemas.validate_train_request request with
  | [] => let (r, app') := train request app in (inr r, app')
  | errors => (inl errors, app)
  end.



End Handlers.

End Main.

(* ===================================================================== *)
(** * Concrete stand-ins for the external capabilities

    Small executable instances of the three interfaces, for running the
    embedding on concrete inputs. *)
(* ===================================================================== *)

Module Sample.

(** A generator whose state is a counter. *)
Definition random : NumpyRandom :=
  {| rng := Z;
     seed_state := fun s => s;
     poisson := fun _ g => ((g mod 5)%Z, (g + 1)%Z);
     exponential := fun scale g => (inject_Z (g mod 7) * scale, (g + 1)%Z);
     normal := fun mu sigma g => (mu + sigma * inject_Z (g mod 3 - 1), (g + 1)%Z);
     choice := fun l g =>
       (nth (Z.to_nat (g mod Z.of_nat (length l))) l 0%Z, (g + 1)%Z) |}.

(** The mean absolute error of predictions against finite labels, cut
    to whole hundredths. *)
Definition mae_hundredths (y : list fnum) (pred : list Q) : Q :=
  let err yp :=
    match fst yp with
    | Fin v => Qabs (v - snd yp)
    | _ => 0
    end in
  let total := fold_right Qplus 0 (map err (combine y pred)) in
  inject_Z (Qfloor (total * 100 / inject_Z (Z.of_nat (length y)))) / 100.

(** A linear model in place of the forest, whose first coefficient depends
    on the generator the fit draws from; the split keeps the first four
    fifths for training; fitting refuses labels that are not finite. *)
Definition sklearn : @Sklearn random :=
  {| Regressor := list Q;
     train_test_split := fun l _ (g : @rng random) =>
       (match l with
        | [] => Raise (ValueError "n_samples=0")
        | _ => let k := (length l * 8 / 10)%nat in
               Return (firstn k l, skipn k l)
        end, (g + 1)%Z);
     rf_fit := fun _ _ y (g : @rng random) =>
       (if forallb is_fin y
        then Return [ inject_Z (g mod 7) - (1 # 100); 0; 5; 3; - 1; 1 ]
        else Raise (ValueError "Input y contains NaN."), (g + 1)%Z);
     rf_predict := fun coef x =>
       fold_right Qplus 0 (map (fun cx => fst cx * snd cx) (combine coef x));
     mean_absolute_error := fun y pred => Return (mae_hundredths y pred);
     r2_score := fun _ _ => Return 1 |}.

(** The bundle of a run on ten samples with seed 7, under any seed. *)
Definition model_data (seed : Z) : @ModelData random sklearn :=
  {| md_model := [ - (1 # 100); 0; 5; 3; - 1; 1 ] : @Regressor random sklearn;
     md_features := feature_columns;
     md_n_estimators := 200;
     md_random_seed := Some seed;
     md_training_samples := 8;
     md_test_samples := 2;
     md_mae := 8152 # 100;
     md_r2 := 1 |}.

Definition image : list Byte.byte :=
  [Byte.x80; Byte.x04; Byte.x95; Byte.x2e].

Definition joblib : @Joblib random sklearn :=
  {| pickle := fun _ => image;
     unpickle := fun bytes =>
       if decide (map Byte.to_N bytes = map Byte.to_N image) then Some (model_data 42) else None |}.

Definition dir_chain (p : string) : list string := ["models"].

Definition old_image : list Byte.byte := [Byte.x80; Byte.x03; Byte.x7d].

(** A world in which an earlier artifact sits at the default path. *)
Definition world0 : @World random :=
  {| np_random := (0%Z : @rng random);
     os_entropy := fun k => (Z.of_nat k : @rng random);
     disk := {[ default_model_path := old_image ]};
     dirs := ∅ |}.


Definition candidate_a : Schemas.CandidateRequest :=
  {| Schemas.distance_m := 12505 # 10; Schemas.distance_cat := 1;
     Schemas.past_perf := 82 # 10; Schemas.fault_history := 2;
     Schemas.fatigue_h := 4; Schemas.fault_severity := 3 |}.

Definition candidate_b : Schemas.CandidateRequest :=
  {| Schemas.distance_m := 3500; Schemas.distance_cat := 1;
     Schemas.past_perf := 65 # 10; Schemas.fault_history := 0;
     Schemas.fatigue_h := 8; Schemas.fault_severity := 3 |}.

(** [candidate_a] with a severity outside [{1,2,3}]. *)
Definition candidate_bad : Schemas.CandidateRequest :=
  {| Schemas.distance_m := 12505 # 10; Schemas.distance_cat := 1;
     Schemas.past_perf := 82 # 10; Schemas.fault_history := 2;
     Schemas.fatigue_h := 4; Schemas.fault_severity := 5 |}.

Definition loaded_store : @DispatchModel.t random sklearn :=
  {| DispatchModel.model_path := default_model_path;
     DispatchModel.state := DispatchModel.Loaded (model_data 42) |}.

Definition empty_store : @DispatchModel.t random sklearn :=
  DispatchModel.get_model None.

Definition app0 : @Main.App random sklearn :=
  {| Main.MODEL_PATH := None;
     Main.model := loaded_store;
     Main.training_service := TrainingService.init None;
     Main.world := world0 |}.

Definition row (d p : Q) (h : Z) (f : Q) (s : Z) : Row :=
  {| distance_m := d; past_perf := p; fault_history := h; fatigue_h := f;
     fault_severity := s; distance_cat := dist_cat d |}.

Definition table3 : DataFrame :=
  [ row 500 7 1 4 2; row 2500 8 0 6 3; row 6000 5 2 10 1 ].

Definition table1 : DataFrame := [ row 500 7 1 4 2 ].

(** A training run on ten samples with seed 7, from an idle service. *)
Definition run_ok :=
  @TrainingService.train random sklearn joblib dir_chain 10 (Some 7%Z)
    (TrainingService.init None, world0).


Definition request : Schemas.TrainRequest :=
  {| Schemas.n_samples := 3000; Schemas.random_seed := Some 42%Z |}.

(** A request whose seed numpy refuses. *)
Definition bad_seed_request : Schemas.TrainRequest :=
  {| Schemas.n_samples := 3000; Schemas.random_seed := Some (-1)%Z |}.

End Sample.

(* ===================================================================== *)
(** * Properties of the training service *)
(* ===================================================================== *)

Section FinallyFacts.
Context {S A : Type}.

(** Whatever the body does, a final block that cannot raise leaves the
    state it produces, and the body's outcome is the outcome of the whole
    statement. *)
Lemma try_finally_total (body : M S A) (f : S -> S) (s : S) :
  try_finally body (modify f) s = (fst (body s), f (snd (body s))).
Proof.
  unfold try_finally, modify. destruct (body s) as [r s']. reflexivity.
Qed.

(** A handler that returns makes the whole [try] return. *)
Lemma try_except_returns (body : M S A) (h : exn -> A) (s : S) :
  exists a, fst (try_except body (fun e => ret (h e)) s) = Return a.
Proof.
  unfold try_except, ret. destruct (body s) as [[a | e] s']; simpl; eauto.
Qed.

End FinallyFacts.

Section ServiceFacts.
Context `{NR : NumpyRandom} `{SK : !Sklearn} `{JL : !Joblib}.
Variable dir_chain : string -> list string.

Import TrainingService.

(** The service's [train] is the guarded body below whenever the flag is
    clear. *)
Lemma train_unfold (n : Z) (seed : option Z) (self : t) (w : World) :
  _training_in_progress self = false ->
  train dir_chain n seed (self, w) =
  try_finally
    (try_except
       (do* on_self (set_training_in_progress true) in
        let* result :=
          on_world (train_model dir_chain n seed (model_path self)) in
        ret (TrainSucceeded (out_mae result) (out_r2 result)
               (out_model_path result) (out_features result) n seed))%py
       (fun e => ret (TrainFailed (str e))))
    (on_self (set_training_in_progress false)) (self, w).
Proof.
  intros Hflag. unfold train, bind at 1, get. simpl. rewrite Hflag. reflexivity.
Qed.

(** The result of [train] in terms of the result of [train_model]. *)
Lemma train_result (n : Z) (seed : option Z) (self : t) (w : World) :
  _training_in_progress self = false ->
  train dir_chain n seed (self, w) =
  match train_model dir_chain n seed (model_path self) w with
  | (Return result, w') =>
      (Return (TrainSucceeded (out_mae result) (out_r2 result)
                 (out_model_path result) (out_features result) n seed),
       (set_training_in_progress false self, w'))
  | (Raise e, w') =>
      (Return (TrainFailed (str e)), (set_training_in_progress false self, w'))
  end.
Proof.
  intros Hflag. rewrite train_unfold by assumption.
  unfold on_self at 2. rewrite try_finally_total.
  unfold try_except, bind, on_self, on_world, zoom, modify, ret. simpl.
  destruct (train_model dir_chain n seed (model_path self) w) as [[r | e] w'];
    reflexivity.
Qed.

(** C3.  A call of [train] that starts a session (the flag is clear when
    it is issued) returns with the flag clear, whether [train_model]
    returned or raised, and [is_training] is false afterwards. *)
Theorem train_clears_in_progress_flag (n : Z) (seed : option Z) (self : t) (w : World) :
  _training_in_progress self = false ->
  forall (r : outcome TrainingResult) (self' : t) (w' : World),
    train dir_chain n seed (self, w) = (r, (self', w')) ->
    _training_in_progress self' = false /\ is_training self' = false /\
    (exists result, r = Return result) /\
    model_path self' = model_path self.
Proof.
  intros Hflag r self' w' Hrun.
  rewrite train_result in Hrun by assumption.
  destruct (train_model dir_chain n seed (model_path self) w) as [[x | e] w1];
    injection Hrun as <- <- <-; simpl; eauto.
Qed.

End ServiceFacts.

Section ServiceWitnesses.
Import TrainingService.

Lemma train_clears_in_progress_flag_witness :
  _training_in_progress (init None) = false /\
  _training_in_progress (fst (snd Sample.run_ok)) = false /\
  is_training (fst (snd Sample.run_ok)) = false /\
  (exists result, fst Sample.run_ok = Return result) /\
  model_path (fst (snd Sample.run_ok)) = model_path (init None).
Proof.
  split; [reflexivity |].
  apply (train_clears_in_progress_flag (NR := Sample.random)
           (SK := Sample.sklearn) (JL := Sample.joblib)
           Sample.dir_chain 10 (Some 7%Z) (init None) Sample.world0 eq_refl
           (fst Sample.run_ok) (fst (snd Sample.run_ok)) (snd (snd Sample.run_ok))).
  rewrite <- !surjective_pairing. reflexivity.
Defined.

End ServiceWitnesses.

(* ===================================================================== *)
(** * Rejection of a call while a session is in progress *)
(* ===================================================================== *)

Section ConflictFacts.
Context `{NR : NumpyRandom} `{SK : !Sklearn} `{JL : !Joblib}.
Variable dir_chain : string -> list string.

Import TrainingService.

(** One caller alone, from a clear flag, passes the check, trains and
    returns with the flag clear again; from a set flag it is rejected at its
    first step. *)
Lemma lone_caller_completes :
  run_schedule [0; 0; 0; 0]%nat (false, [PcCheck]) = (false, [PcReturned]).
Proof. reflexivity. Qed.

Lemma lone_caller_rejected :
  run_schedule [0]%nat (true, [PcCheck]) = (true, [PcRaised]).
Proof. reflexivity. Qed.

Lemma step_sys_at (f : bool) (l : list Pc) (i : nat) (p : Pc) :
  l !! i = Some p ->
  step_sys i (f, l)
  = (fst (step_caller f p), <[i := snd (step_caller f p)]> l).
Proof.
  intros Hp. unfold step_sys. cbn [fst snd]. rewrite Hp.
  destruct (step_caller f p). reflexivity.
Qed.

Lemma step_sys_absent (s : Sys) (i : nat) :
  snd s !! i = None -> step_sys i s = s.
Proof. intros Hn. unfold step_sys. rewrite Hn. reflexivity. Qed.




















End ConflictFacts.

Section ConflictWitnesses.
Import TrainingService.


End ConflictWitnesses.

(* ===================================================================== *)
(** * Properties of the trainer's effects *)
(* ===================================================================== *)

Create HintDb trainer.

(** One [bind]: the first computation by the hints, then the rest. *)
Ltac step_bind lem := apply lem; [auto with trainer | intros ?].

Section TrainerFacts.
Context `{NR : NumpyRandom} `{SK : !Sklearn} `{JL : !Joblib}.
Variable dir_chain : string -> list string.

Lemma keeps_disk_bind {A B : Type} (m : M World A) (k : A -> M World B) :
  keeps_disk m -> (forall a, keeps_disk (k a)) -> keeps_disk (bind m k).
Proof.
  intros Hm Hk w. unfold bind. specialize (Hm w).
  destruct (m w) as [[a | e] w1]; simpl in *.
  - rewrite Hk. exact Hm.
  - exact Hm.
Qed.

Lemma keeps_disk_ret {A : Type} (a : A) : keeps_disk (ret a).
Proof. intros w. reflexivity. Qed.

Lemma keeps_disk_lift {A : Type} (o : outcome A) : keeps_disk (lift o).
Proof. intros w. reflexivity. Qed.

Lemma keeps_disk_seed (s : option Z) : keeps_disk (np_random_seed s).
Proof.
  intros w. unfold np_random_seed.
  destruct s as [s |]; [destruct (seed_in_range s) |]; reflexivity.
Qed.

Lemma keeps_disk_random_state {A : Type} (s : option Z)
    (call : rng -> outcome A * rng) :
  keeps_disk (with_random_state s call).
Proof.
  intros w. unfold with_random_state.
  destruct s as [s |]; [destruct (seed_in_range s); reflexivity |].
  destruct (call (np_random w)). reflexivity.
Qed.

Lemma keeps_disk_draw {A : Type} (draw : rng -> A * rng) (n : Z) :
  keeps_disk (draw_size draw n).
Proof.
  intros w. unfold draw_size. destruct (n <? 0)%Z; [reflexivity |].
  destruct (sample draw (Z.to_nat n) (np_random w)). reflexivity.
Qed.

Lemma keeps_disk_mkdir (p : string) : keeps_disk (mkdir_parents dir_chain p).
Proof. intros w. reflexivity. Qed.

#[local] Hint Resolve keeps_disk_ret keeps_disk_lift keeps_disk_seed
  keeps_disk_random_state keeps_disk_draw keeps_disk_mkdir : trainer.

Lemma generate_keeps_disk (n : Z) (seed : option Z) :
  keeps_disk (generate_synthetic_data n seed).
Proof.
  unfold generate_synthetic_data.
  repeat step_bind @keeps_disk_bind. auto with trainer.
Qed.

Lemma train_model_evaluate_keeps_disk (n : Z) (seed : option Z) :
  keeps_disk (train_model_evaluate n seed).
Proof.
  unfold train_model_evaluate.
  apply keeps_disk_bind; [apply generate_keeps_disk | intros df].
  repeat step_bind @keeps_disk_bind. auto with trainer.
Qed.

(** The fitting part in terms of the evaluation: the directories are made
    once the evaluation has returned, and not before. *)
Lemma train_model_fit_run (n : Z) (seed : option Z) (mp : option string)
    (w : World) :
  train_model_fit dir_chain n seed mp w =
  match train_model_evaluate n seed w with
  | (Return ev, w0) =>
      (Return (bundle_of seed ev, resolved_path mp),
       snd (mkdir_parents dir_chain (resolved_path mp) w0))
  | (Raise e, w0) => (Raise e, w0)
  end.
Proof.
  unfold train_model_fit, bind at 1.
  destruct (train_model_evaluate n seed w) as [[ev | e] w0]; reflexivity.
Qed.

Lemma train_model_fit_keeps_disk (n : Z) (seed : option Z) (mp : option string) :
  keeps_disk (train_model_fit dir_chain n seed mp).
Proof.
  unfold train_model_fit.
  apply keeps_disk_bind; [apply train_model_evaluate_keeps_disk | intros ev].
  repeat step_bind @keeps_disk_bind. auto with trainer.
Qed.

(** The path of a fitted bundle is the configured one. *)
Lemma train_model_fit_path (n : Z) (seed : option Z) (mp : option string) (w w1 : World)
    (md : ModelData) (p : string) :
  train_model_fit dir_chain n seed mp w = (Return (md, p), w1) ->
  p = resolved_path mp /\ md_features md = feature_columns /\
  md_random_seed md = seed.
Proof.
  rewrite train_model_fit_run.
  destruct (train_model_evaluate n seed w) as [[ev | e] w0]; [| discriminate].
  intros Heq. injection Heq as <- <- _. auto.
Qed.

(** The dump ends with the whole image at the path. *)
Lemma dump_states_last (bytes : list Byte.byte) (p : string)
    (d : gmap string (list Byte.byte)) :
  List.last (dump_states bytes p d) d = <[p := bytes]> d.
Proof.
  unfold dump_states. rewrite seq_S, map_app. simpl.
  rewrite last_last, firstn_all. reflexivity.
Qed.

(** Every disk of the dump differs from the one before it at the artifact
    path only, where it holds a prefix of the image. *)
Lemma dump_states_in_place (bytes : list Byte.byte) (p : string)
    (d d' : gmap string (list Byte.byte)) :
  In d' (dump_states bytes p d) ->
  exists k, (k <= length bytes)%nat /\ d' = <[p := firstn k bytes]> d.
Proof.
  unfold dump_states. intros Hin. apply in_map_iff in Hin.
  destruct Hin as [k [<- Hk]]. apply in_seq in Hk. exists k. split; [lia | reflexivity].
Qed.

(** [train_model] in terms of its fitting part. *)
Lemma train_model_run (n : Z) (seed : option Z) (mp : option string) (w : World) :
  train_model dir_chain n seed mp w =
  match train_model_fit dir_chain n seed mp w with
  | (Return (md, p), w1) =>
      (Return {| out_model := md_model md; out_features := md_features md;
                 out_mae := md_mae md; out_r2 := md_r2 md;
                 out_model_path := p |},
       set_disk (<[p := pickle md]> (disk w1)) w1)
  | (Raise e, w1) => (Raise e, w1)
  end.
Proof.
  unfold train_model, bind at 1.
  destruct (train_model_fit dir_chain n seed mp w) as [[[md p] | e] w1];
    [| reflexivity].
  unfold bind, joblib_dump, modify, ret. cbn [fst snd].
  rewrite dump_states_last. reflexivity.
Qed.

(** A run of [train_model] that raises has written no file. *)
Lemma train_model_raise_keeps_disk (n : Z) (seed : option Z) (mp : option string)
    (w w' : World) (e : exn) :
  train_model dir_chain n seed mp w = (Raise e, w') -> disk w' = disk w.
Proof.
  rewrite train_model_run.
  pose proof (train_model_fit_keeps_disk n seed mp w) as Hd.
  destruct (train_model_fit dir_chain n seed mp w) as [[[md p] | e1] w1];
    [discriminate |].
  intros Heq. injection Heq as _ <-. exact Hd.
Qed.

End TrainerFacts.

(* ===================================================================== *)
(** * Failure of a training run *)
(* ===================================================================== *)

Section FailureFacts.
Context `{NR : NumpyRandom} `{SK : !Sklearn} `{JL : !Joblib}.
Variable dir_chain : string -> list string.

(** The handler changes the model store only on the path on which it
    answers with a successful result. *)
Lemma train_handler_reload_only_on_success
    (request : Schemas.TrainRequest) (app : Main.App) :
  Main.model (snd (Main.train dir_chain request app)) = Main.model app \/
  exists result,
    fst (Main.train dir_chain request app) = Main.Ok result /\
    TrainingService.success result = true.
Proof.
  unfold Main.train.
  destruct (TrainingService.is_training (Main.training_service app));
    [left; reflexivity |].
  destruct (TrainingService.train dir_chain _ _ _) as [[result | e] [svc w]];
    [| left; reflexivity].
  destruct (TrainingService.success result) eqn:Hs.
  - right. exists result. split; [reflexivity | exact Hs].
  - left. reflexivity.
Qed.

(** C4.  When [train_model] raises (in data generation, in the split, in
    fitting or in the evaluation), the service's [train] does not raise: it
    returns the failure dictionary with the exception's text.  The handler
    then answers 500 and leaves the model store as it was, so [predict]
    answers every request as before; no file has been written.  In every
    run the model store changes only together with a successful result. *)
Theorem failed_training_keeps_model
    (request : Schemas.TrainRequest) (app : Main.App) :
  (forall (e : exn) (w1 : World),
     TrainingService.is_training (Main.training_service app) = false ->
     train_model dir_chain (Schemas.n_samples request)
       (Schemas.random_seed request)
       (TrainingService.model_path (Main.training_service app))
       (Main.world app) = (Raise e, w1) ->
     fst (TrainingService.train dir_chain (Schemas.n_samples request)
            (Schemas.random_seed request)
            (Main.training_service app, Main.world app))
     = Return (TrainingService.TrainFailed (str e)) /\
     fst (Main.train dir_chain request app)
     = Main.HTTPException Main.HTTP_500_INTERNAL_SERVER_ERROR (str e) /\
     Main.model (snd (Main.train dir_chain request app)) = Main.model app /\
     disk (Main.world (snd (Main.train dir_chain request app)))
     = disk (Main.world app) /\
     TrainingService.is_training
       (Main.training_service (snd (Main.train dir_chain request app))) = false /\
     forall body,
       Main.api_predict (Main.model (snd (Main.train dir_chain request app))) body
       = Main.api_predict (Main.model app) body)
  /\
  (Main.model (snd (Main.train dir_chain request app)) = Main.model app \/
   exists result,
     fst (Main.train dir_chain request app) = Main.Ok result /\
     TrainingService.success result = true).
Proof.
  split; [| apply train_handler_reload_only_on_success].
  intros e w1 Hidle Hraise.
  pose proof (train_model_raise_keeps_disk dir_chain _ _ _ _ _ _ Hraise) as Hdisk.
  unfold Main.train. rewrite Hidle.
  unfold TrainingService.is_training in Hidle.
  rewrite (train_result dir_chain _ _ _ _ Hidle), Hraise. simpl.
  repeat split; try reflexivity. exact Hdisk.
Qed.

End FailureFacts.

Lemma failed_training_keeps_model_witness :
  TrainingService.is_training (Main.training_service Sample.app0) = false /\
  fst (Main.train (JL := Sample.joblib) Sample.dir_chain
         Sample.bad_seed_request Sample.app0)
  = Main.HTTPException 500 "Seed must be between 0 and 2**32 - 1" /\
  Main.model (snd (Main.train (JL := Sample.joblib) Sample.dir_chain
                     Sample.bad_seed_request Sample.app0))
  = Sample.loaded_store.
Proof.
  split; [reflexivity |].
  pose proof (proj1 (failed_training_keeps_model (JL := Sample.joblib)
                Sample.dir_chain Sample.bad_seed_request Sample.app0)
                (ValueError "Seed must be between 0 and 2**32 - 1")
                Sample.world0 eq_refl eq_refl) as Hw.
  split; [exact (proj1 (proj2 Hw)) | exact (proj1 (proj2 (proj2 Hw)))].
Defined.

(* ===================================================================== *)
(** * Reproducibility *)
(* ===================================================================== *)

Section SeedFacts.
Context `{NR : NumpyRandom} `{SK : !Sklearn} `{JL : !Joblib}.
Variable dir_chain : string -> list string.


Lemma generator_only_ret {A : Type} (a : A) : generator_only (ret a).
Proof. intros w1 w2 Hg. split; [reflexivity | exact Hg]. Qed.

Lemma generator_only_lift {A : Type} (o : outcome A) : generator_only (lift o).
Proof. intros w1 w2 Hg. split; [reflexivity | exact Hg]. Qed.

Lemma generator_only_draw {A : Type} (draw : rng -> A * rng) (n : Z) :
  generator_only (draw_size draw n).
Proof.
  intros w1 w2 Hg. unfold draw_size.
  destruct (n <? 0)%Z; [split; [reflexivity | exact Hg] |].
  rewrite Hg. destruct (sample draw (Z.to_nat n) (np_random w2)).
  split; reflexivity.
Qed.

Lemma generator_only_mkdir (p : string) :
  generator_only (mkdir_parents dir_chain p).
Proof. intros w1 w2 Hg. split; [reflexivity | exact Hg]. Qed.

Lemma generator_only_dump (md : ModelData) (p : string) :
  generator_only (joblib_dump md p).
Proof. intros w1 w2 Hg. split; [reflexivity | exact Hg]. Qed.

Lemma generator_only_random_state {A : Type} (s : option Z)
    (call : rng -> outcome A * rng) :
  generator_only (with_random_state s call).
Proof.
  intros w1 w2 Hg. unfold with_random_state.
  destruct s as [s |].
  - destruct (seed_in_range s); (split; [reflexivity | exact Hg]).
  - rewrite Hg. destruct (call (np_random w2)). split; reflexivity.
Qed.



#[local] Hint Resolve generator_only_ret generator_only_lift
  generator_only_random_state
  generator_only_draw generator_only_mkdir generator_only_dump : trainer.




End SeedFacts.


(* ===================================================================== *)
(** * Persistence of the artifact *)
(* ===================================================================== *)

Section PersistFacts.
Context `{NR : NumpyRandom} `{SK : !Sklearn} `{JL : !Joblib}.
Variable dir_chain : string -> list string.

(** C7, as amended.  A run of [train_model] that fits a model writes the
    bundle in place: the dump goes to the configured path itself (the
    default one when none is given), no other file is created, renamed or
    changed, and when the run returns the path holds the complete image of
    the new bundle.  While the dump runs, the contents a reader can find at
    the path are exactly the prefixes of that image, the empty file among
    them. *)
Theorem train_model_writes_in_place
    (n : Z) (seed : option Z) (mp : option string) (w w1 : World) (md : ModelData)
    (p : string) :
  train_model_fit dir_chain n seed mp w = (Return (md, p), w1) ->
  p = resolved_path mp /\
  disk (snd (train_model dir_chain n seed mp w)) = <[p := pickle md]> (disk w) /\
  (forall d, In d (train_model_disks dir_chain n seed mp w) <->
     d = disk w \/
     exists k, (k <= length (pickle md))%nat /\
               d = <[p := firstn k (pickle md)]> (disk w)).
Proof.
  intros Hfit.
  pose proof (train_model_fit_keeps_disk dir_chain n seed mp w) as Hd.
  rewrite Hfit in Hd. simpl in Hd.
  split; [exact (proj1 (train_model_fit_path dir_chain _ _ _ _ _ _ _ Hfit)) |].
  split.
  - rewrite train_model_run, Hfit. simpl. rewrite Hd. reflexivity.
  - intros d. unfold train_model_disks. rewrite Hfit, Hd. simpl. split.
    + intros [<- | [Hk | Hin]].
      * left. reflexivity.
      * right. exists 0%nat. split; [lia | symmetry; exact Hk].
      * right. apply in_map_iff in Hin. destruct Hin as [k [<- Hk]].
        apply in_seq in Hk. exists k. split; [lia | reflexivity].
    + intros [-> | [k [Hk ->]]]; [left; reflexivity |].
      right. destruct k as [| k]; [left; reflexivity | right].
      apply in_map_iff. exists (S k). split; [reflexivity |].
      apply in_seq. lia.
Qed.

End PersistFacts.

Lemma train_model_writes_in_place_witness :
  fst (train_model_fit (NR := Sample.random) (SK := Sample.sklearn)
         Sample.dir_chain 10 (Some 7%Z) None Sample.world0)
  = Return (Sample.model_data 7, default_model_path) /\
  disk (snd (train_model (JL := Sample.joblib) Sample.dir_chain 10
               (Some 7%Z) None Sample.world0))
  = <[default_model_path := Sample.image]> (disk Sample.world0).
Proof.
  split; [vm_compute; reflexivity |].
  refine (proj1 (proj2
    (train_model_writes_in_place (JL := Sample.joblib) Sample.dir_chain
       10 (Some 7%Z) None Sample.world0
       (snd (train_model_fit (NR := Sample.random) (SK := Sample.sklearn)
               Sample.dir_chain 10 (Some 7%Z) None Sample.world0))
       (Sample.model_data 7) default_model_path _))).
  vm_compute. reflexivity.
Defined.

(** C7, as stated, fails.  With an earlier artifact at the path, a reader
    that opens the file just after the dump has opened it finds an empty
    file: neither the old artifact nor the new one. *)
Lemma persist_not_atomic :
  ~ persist_atomic (JL := Sample.joblib) Sample.dir_chain 10 (Some 7%Z) None
      Sample.world0.
Proof.
  intros Hatomic.
  pose (w1 := snd (train_model_fit (NR := Sample.random) (SK := Sample.sklearn)
                     Sample.dir_chain 10 (Some 7%Z) None Sample.world0)).
  assert (Hfit : train_model_fit (NR := Sample.random) (SK := Sample.sklearn)
                   Sample.dir_chain 10 (Some 7%Z) None Sample.world0
                 = (Return (Sample.model_data 7, default_model_path), w1))
    by (vm_compute; reflexivity).
  assert (Hd : disk w1 = disk Sample.world0)
    by apply (train_model_fit_keeps_disk (SK := Sample.sklearn)).
  unfold persist_atomic, train_model_disks in Hatomic.
  rewrite train_model_run, Hfit in Hatomic.
  cbn [fst snd disk set_disk resolved_path] in Hatomic. rewrite Hd in Hatomic.
  specialize (Hatomic (<[default_model_path := []]> (disk Sample.world0))).
  rewrite !lookup_insert_eq in Hatomic.
  destruct Hatomic as [Hold | Hnew].
  - right. left. reflexivity.
  - unfold Sample.world0 in Hold. cbn [disk] in Hold.
    rewrite lookup_singleton_eq in Hold. discriminate Hold.
  - discriminate Hnew.
Qed.

(* ===================================================================== *)
(** * Validation of a predict request *)
(* ===================================================================== *)

Section ValidationFacts.
Import Schemas.

Lemma Qle_bool_false (a b : Q) : b < a -> Qle_bool a b = false.
Proof.
  intros Hlt. destruct (Qle_bool a b) eqn:Hle; [| reflexivity].
  apply Qle_bool_iff in Hle. exfalso. exact (Qlt_not_le _ _ Hlt Hle).
Qed.

Lemma inject_Z_lt (x y : Z) : (x < y)%Z -> inject_Z x < inject_Z y.
Proof. intros Hlt. rewrite <- Zlt_Qlt. exact Hlt. Qed.

(** A field outside its documented bounds fails the check of its
    declaration. *)
Lemma offending_field_fails (name : string) (c : CandidateRequest) :
  Offending name c ->
  exists f, In f candidate_fields /\ field_name f = name /\ field_ok f c = false.
Proof.
  intros Hoff. destruct Hoff as
    [c Hb | c Hb | c Hb | c Hb | c Hb | c Hb | c Hb | c Hb | c Hb | c Hb].
  - eexists. split; [left; reflexivity |]. split; [reflexivity |].
    unfold field_ok. cbn [field_ge field_le field_value ge_ok le_ok].
    rewrite (Qle_bool_false _ _ Hb). reflexivity.
  - eexists. split; [right; left; reflexivity |]. split; [reflexivity |].
    unfold field_ok. cbn [field_ge field_le field_value ge_ok le_ok].
    rewrite (Qle_bool_false 0 _ (inject_Z_lt _ 0 Hb)). reflexivity.
  - eexists. split; [right; left; reflexivity |]. split; [reflexivity |].
    unfold field_ok. cbn [field_ge field_le field_value ge_ok le_ok].
    rewrite (Qle_bool_false _ 2 (inject_Z_lt 2 _ Hb)). apply andb_false_r.
  - eexists. split; [do 2 right; left; reflexivity |]. split; [reflexivity |].
    unfold field_ok. cbn [field_ge field_le field_value ge_ok le_ok].
    rewrite (Qle_bool_false _ _ Hb). reflexivity.
  - eexists. split; [do 2 right; left; reflexivity |]. split; [reflexivity |].
    unfold field_ok. cbn [field_ge field_le field_value ge_ok le_ok].
    rewrite (Qle_bool_false _ _ Hb). apply andb_false_r.
  - eexists. split; [do 3 right; left; reflexivity |]. split; [reflexivity |].
    unfold field_ok. cbn [field_ge field_le field_value ge_ok le_ok].
    rewrite (Qle_bool_false 0 _ (inject_Z_lt _ 0 Hb)). reflexivity.
  - eexists. split; [do 4 right; left; reflexivity |]. split; [reflexivity |].
    unfold field_ok. cbn [field_ge field_le field_value ge_ok le_ok].
    rewrite (Qle_bool_false _ _ Hb). reflexivity.
  - eexists. split; [do 4 right; left; reflexivity |]. split; [reflexivity |].
    unfold field_ok. cbn [field_ge field_le field_value ge_ok le_ok].
    rewrite (Qle_bool_false _ _ Hb). apply andb_false_r.
  - eexists. split; [do 5 right; left; reflexivity |]. split; [reflexivity |].
    unfold field_ok. cbn [field_ge field_le field_value ge_ok le_ok].
    rewrite (Qle_bool_false 1 _ (inject_Z_lt _ 1 Hb)). reflexivity.
  - eexists. split; [do 5 right; left; reflexivity |]. split; [reflexivity |].
    unfold field_ok. cbn [field_ge field_le field_value ge_ok le_ok].
    rewrite (Qle_bool_false _ 3 (inject_Z_lt 3 _ Hb)). apply andb_false_r.
Qed.

Lemma validate_candidate_names (name : string) (c : CandidateRequest) :
  Offending name c -> In name (validate_candidate c).
Proof.
  intros Hoff. destruct (offending_field_fails name c Hoff) as [f [Hin [<- Hbad]]].
  unfold validate_candidate. apply in_map.
  apply list_elem_of_In, list_elem_of_filter. split; [exact Hbad |].
  apply list_elem_of_In. exact Hin.
Qed.

Lemma validate_items_names (cs : list CandidateRequest) :
  forall (k i : nat) (c : CandidateRequest) (name : string),
    nth_error cs i = Some c -> In name (validate_candidate c) ->
    In (LocField (k + i) name) (validate_items k cs).
Proof.
  induction cs as [| c0 cs IH]; intros k i c name Hnth Hin.
  - destruct i; discriminate.
  - simpl. apply in_or_app. destruct i as [| i]; simpl in Hnth.
    + injection Hnth as ->. left. rewrite Nat.add_0_r. apply in_map. exact Hin.
    + right. replace (k + S i)%nat with (S k + i)%nat by lia.
      eapply IH; eassumption.
Qed.

End ValidationFacts.

Section ValidationBoundary.
Context `{NR : NumpyRandom} `{SK : !Sklearn}.
Import Schemas.

(** C8.  A predict request in which the candidate at index [i] has a field
    outside its documented bounds never reaches the handler: it ends in a
    validation error whose list names that field of that candidate, with a
    4xx status (422, assigned by the request validation) and not a 5xx one.
    So does a request with an empty candidate list, which names the list
    itself. *)
Theorem out_of_bounds_is_client_error
    (model : DispatchModel.t) (body : list CandidateRequest) :
  (forall (i : nat) (c : CandidateRequest) (name : string),
     nth_error body i = Some c -> Offending name c ->
     exists errors,
       Main.api_predict model body = Main.RequestValidationError errors /\
       In (LocField i name) errors /\
       Main.is_client_error (Main.status_of (Main.api_predict model body)) = true /\
       Main.is_server_error (Main.status_of (Main.api_predict model body)) = false)
  /\ Main.api_predict model [] = Main.RequestValidationError [LocCandidates].
Proof.
  split; [| reflexivity].
  intros i c name Hnth Hoff.
  assert (Hin : In (LocField i name) (validate_predict_request body)).
  { unfold validate_predict_request. apply in_or_app. right.
    apply (validate_items_names body 0 i c name Hnth).
    apply validate_candidate_names. exact Hoff. }
  unfold Main.api_predict.
  destruct (validate_predict_request body) as [| e errors] eqn:Hv.
  - destruct Hin.
  - exists (e :: errors). repeat split; [exact Hin].
Qed.

End ValidationBoundary.

Lemma out_of_bounds_is_client_error_witness :
  nth_error [Sample.candidate_a; Sample.candidate_bad] 1 = Some Sample.candidate_bad /\
  Schemas.Offending "fault_severity" Sample.candidate_bad /\
  exists errors,
    Main.api_predict Sample.loaded_store [Sample.candidate_a; Sample.candidate_bad]
    = Main.RequestValidationError errors /\
    In (Schemas.LocField 1 "fault_severity") errors /\
    Main.is_client_error
      (Main.status_of
         (Main.api_predict Sample.loaded_store
            [Sample.candidate_a; Sample.candidate_bad])) = true /\
    Main.is_server_error
      (Main.status_of
         (Main.api_predict Sample.loaded_store
            [Sample.candidate_a; Sample.candidate_bad])) = false.
Proof.
  assert (Hoff : Schemas.Offending "fault_severity" Sample.candidate_bad)
    by (apply Schemas.fault_severity_above; simpl; lia).
  split; [reflexivity |]. split; [exact Hoff |].
  exact (proj1 (out_of_bounds_is_client_error Sample.loaded_store
                  [Sample.candidate_a; Sample.candidate_bad])
           1%nat Sample.candidate_bad "fault_severity" eq_refl Hoff).
Defined.

(* ===================================================================== *)
(** * Ranking and rounding *)
(* ===================================================================== *)

Section ArgmaxFacts.
Import DispatchModel.

Lemma argmax_from_spec (l : list Q) :
  forall (bi : nat) (b : Q) (i : nat),
    (argmax_from bi b i l = bi /\ Forall (fun y => y <= b) l) \/
    (exists (j : nat) (x : Q),
        argmax_from bi b i l = (i + j)%nat /\
        nth_error l j = Some x /\ b < x /\
        Forall (fun y => y <= x) l /\
        (forall (j' : nat) (y : Q),
            (j' < j)%nat -> nth_error l j' = Some y -> y < x)).
Proof.
  induction l as [| x l IH]; intros bi b i.
  - left. split; [reflexivity | constructor].
  - simpl. destruct (Qlt_le_dec b x) as [Hlt | Hle].
    + right. destruct (IH i x (S i)) as [[Hk Hall] | [j [x' [Hk [Hn [Hx [Hall Hpre]]]]]]].
      * exists 0%nat, x. rewrite Hk, Nat.add_0_r.
        repeat split; try assumption.
        -- constructor; [apply Qle_refl | exact Hall].
        -- intros j' y Hj. lia.
      * exists (S j), x'. rewrite Hk.
        split; [lia |]. split; [exact Hn |].
        split; [eapply Qlt_trans; eassumption |].
        split; [constructor; [apply Qlt_le_weak; exact Hx | exact Hall] |].
        intros [| j'] y Hj Hy; simpl in Hy.
        -- injection Hy as <-. exact Hx.
        -- apply (Hpre j'); [lia | exact Hy].
    + destruct (IH bi b (S i)) as [[Hk Hall] | [j [x' [Hk [Hn [Hx [Hall Hpre]]]]]]].
      * left. split; [exact Hk | constructor; assumption].
      * right. exists (S j), x'. rewrite Hk.
        split; [lia |]. split; [exact Hn |]. split; [exact Hx |].
        split; [constructor;
                [apply Qlt_le_weak; eapply Qle_lt_trans; eassumption | exact Hall] |].
        intros [| j'] y Hj Hy; simpl in Hy.
        -- injection Hy as <-. eapply Qle_lt_trans; eassumption.
        -- apply (Hpre j'); [lia | exact Hy].
Qed.

(** [argmax] points at a maximum, and at the first one. *)
Lemma argmax_spec (l : list Q) :
  l <> [] ->
  exists m,
    nth_error l (argmax l) = Some m /\
    (forall (i : nat) (y : Q), nth_error l i = Some y -> y <= m) /\
    (forall (i : nat) (y : Q),
        (i < argmax l)%nat -> nth_error l i = Some y -> y < m).
Proof.
  destruct l as [| x l]; [congruence | intros _]. simpl.
  destruct (argmax_from_spec l 0 x 1)
    as [[Hk Hall] | [j [x' [Hk [Hn [Hx [Hall Hpre]]]]]]]; rewrite Hk.
  - exists x. split; [reflexivity |]. split.
    + intros [| i] y Hy; simpl in Hy.
      * injection Hy as <-. apply Qle_refl.
      * rewrite List.Forall_forall in Hall. apply Hall.
        eapply nth_error_In. exact Hy.
    + intros i y Hi. lia.
  - exists x'. split; [exact Hn |]. split.
    + intros [| i] y Hy; simpl in Hy.
      * injection Hy as <-. apply Qlt_le_weak. exact Hx.
      * rewrite List.Forall_forall in Hall. apply Hall.
        eapply nth_error_In. exact Hy.
    + intros [| i] y Hi Hy; simpl in Hy.
      * injection Hy as <-. exact Hx.
      * apply (Hpre i); [lia | exact Hy].
Qed.

Lemma argmax_in_range (l : list Q) : l <> [] -> (argmax l < length l)%nat.
Proof.
  intros Hne. destruct (argmax_spec l Hne) as [m [Hm _]].
  apply nth_error_Some. congruence.
Qed.

End ArgmaxFacts.

(** Turn the result of a comparison into the order it states. *)
Ltac compare_prop E :=
  first [ apply (proj2 (Qeq_alt _ _)) in E
        | apply (proj2 (Qlt_alt _ _)) in E
        | apply (proj2 (Qgt_alt _ _)) in E ].

Section RoundingFacts.
Import Main.

Lemma round_half_even_bounds (q : Q) :
  (Qfloor q <= round_half_even q <= Qfloor q + 1)%Z.
Proof.
  unfold round_half_even.
  destruct (Qcompare (q - inject_Z (Qfloor q)) (1 # 2));
    [destruct (Z.even (Qfloor q)) | |]; lia.
Qed.

(** Rounding never reverses an order. *)
Lemma round_half_even_mono (q1 q2 : Q) :
  q1 <= q2 -> (round_half_even q1 <= round_half_even q2)%Z.
Proof.
  intros Hle. pose proof (Qfloor_resp_le _ _ Hle) as Hfl.
  pose proof (round_half_even_bounds q1) as B1.
  pose proof (round_half_even_bounds q2) as B2.
  destruct (Z.eq_dec (Qfloor q1) (Qfloor q2)) as [Heq | Hne]; [| lia].
  clear B1 B2 Hfl. unfold round_half_even. rewrite <- Heq.
  destruct (Qcompare (q1 - inject_Z (Qfloor q1)) (1 # 2)) eqn:E1;
    destruct (Qcompare (q2 - inject_Z (Qfloor q1)) (1 # 2)) eqn:E2;
    try (destruct (Z.even (Qfloor q1)); lia); try lia;
    exfalso;
    compare_prop E1; compare_prop E2; lra.
Qed.

Lemma round2_mono (q1 q2 : Q) : q1 <= q2 -> round2 q1 <= round2 q2.
Proof.
  intros Hle. unfold round2.
  assert (H100 : q1 * 100 <= q2 * 100) by lra.
  apply round_half_even_mono in H100. rewrite Zle_Qle in H100.
  unfold Qdiv. apply Qmult_le_compat_r; [exact H100 | discriminate].
Qed.

Lemma round_half_even_near (q : Q) :
  q - (1 # 2) <= inject_Z (round_half_even q) <= q + (1 # 2).
Proof.
  pose proof (Qfloor_le q) as Hlo. pose proof (Qlt_floor q) as Hhi.
  rewrite inject_Z_plus in Hhi. change (inject_Z 1) with 1 in Hhi.
  unfold round_half_even.
  destruct (Qcompare (q - inject_Z (Qfloor q)) (1 # 2)) eqn:E; compare_prop E.
  - destruct (Z.even (Qfloor q)).
    + split; lra.
    + rewrite inject_Z_plus. change (inject_Z 1) with 1. split; lra.
  - split; lra.
  - rewrite inject_Z_plus. change (inject_Z 1) with 1. split; lra.
Qed.

Lemma round2_near (q : Q) :
  q - (1 # 200) <= round2 q <= q + (1 # 200).
Proof.
  destruct (round_half_even_near (q * 100)) as [Hlo Hhi]. unfold round2. split.
  - apply Qle_shift_div_l; [reflexivity | lra].
  - apply Qle_shift_div_r; [reflexivity | lra].
Qed.

(** A number halfway between two integers goes to the even one. *)
Lemma round_half_even_tie (q : Q) (j : Z) :
  q == inject_Z j + (1 # 2) -> Z.even (round_half_even q) = true.
Proof.
  intros Hq.
  assert (Hfl : Qfloor q = j).
  { pose proof (Qfloor_le q) as Hlo. pose proof (Qlt_floor q) as Hhi.
    rewrite inject_Z_plus in Hhi. change (inject_Z 1) with 1 in Hhi.
    assert (H1 : inject_Z (Qfloor q) < inject_Z (j + 1)).
    { rewrite inject_Z_plus. change (inject_Z 1) with 1. lra. }
    assert (H2 : inject_Z j < inject_Z (Qfloor q + 1)).
    { rewrite inject_Z_plus. change (inject_Z 1) with 1. lra. }
    rewrite <- Zlt_Qlt in H1, H2. lia. }
  unfold round_half_even. rewrite Hfl.
  destruct (Qcompare (q - inject_Z j) (1 # 2)) eqn:E; compare_prop E;
    [| lra | lra].
  destruct (Z.even j) eqn:Hj; [exact Hj |].
  rewrite Z.even_add, Hj. reflexivity.
Qed.

(** What [round(score, 2)] is: a whole number of hundredths, nearest to the
    score, the even one of two that are equally near. *)
Lemma round2_spec (q : Q) :
  exists k : Z,
    round2 q == inject_Z k / 100 /\
    q - (1 # 200) <= round2 q <= q + (1 # 200) /\
    (forall j : Z, q * 100 == inject_Z j + (1 # 2) -> Z.even k = true).
Proof.
  exists (round_half_even (q * 100)).
  split; [reflexivity |]. split; [apply round2_near |].
  intros j Hj. exact (round_half_even_tie _ j Hj).
Qed.

End RoundingFacts.

(* ===================================================================== *)
(** * The predict endpoint *)
(* ===================================================================== *)

Section PredictFacts.
Context `{NR : NumpyRandom} `{SK : !Sklearn}.
Import Schemas.

(** Every validated candidate encodes against the trained column order. *)
Lemma encode_dict (c : CandidateRequest) :
  DispatchModel.encode feature_columns (dict c) = Some (feature_vector c).
Proof. vm_compute. reflexivity. Qed.

Lemma encode_all (body : list CandidateRequest) :
  mapM (DispatchModel.encode feature_columns) (map dict body)
  = Some (map feature_vector body).
Proof.
  apply mapM_Some_2. induction body as [| c body IH]; simpl.
  - constructor.
  - constructor; [apply encode_dict | exact IH].
Qed.

Lemma valid_request_nonempty (body : list CandidateRequest) :
  validate_predict_request body = [] -> body <> [].
Proof. intros Hv ->. discriminate Hv. Qed.

(** The store's [predict] on a loaded artifact with the trained columns. *)
Lemma store_predict_loaded (model : DispatchModel.t) (art : ModelData)
    (body : list CandidateRequest) :
  DispatchModel.state model = DispatchModel.Loaded art ->
  md_features art = feature_columns ->
  body <> [] ->
  exists details,
    DispatchModel.predict model (map dict body)
    = Return (DispatchModel.argmax
                (map (fun c => rf_predict (md_model art) (feature_vector c)) body),
              map (fun c => rf_predict (md_model art) (feature_vector c)) body,
              details).
Proof.
  intros Hst Hfeat Hne. unfold DispatchModel.predict.
  rewrite Hst, Hfeat, encode_all.
  destruct body as [| c body]; [congruence |].
  rewrite <- (map_map feature_vector (rf_predict (md_model art))).
  simpl. eexists. reflexivity.
Qed.

(** C9.  While the store is not in the loaded state, [predict] of the
    store raises the unavailable-model error for every candidate list,
    and the endpoint answers a well-formed request with 503: a status that
    is neither the 422 of a rejected body nor the 400 of a [ValueError]. *)
Theorem predict_without_model_is_503
    (model : DispatchModel.t) (body : list CandidateRequest) :
  DispatchModel.is_loaded model = false ->
  DispatchModel.predict model (map dict body)
  = Raise DispatchModel.ModelUnavailableError /\
  Main.predict model body
  = Main.HTTPException Main.HTTP_503_SERVICE_UNAVAILABLE
      "Model not available: Model not loaded" /\
  (validate_predict_request body = [] ->
   Main.api_predict model body
   = Main.HTTPException Main.HTTP_503_SERVICE_UNAVAILABLE
       "Model not available: Model not loaded") /\
  Main.HTTP_503_SERVICE_UNAVAILABLE <> Main.HTTP_422_UNPROCESSABLE_ENTITY /\
  Main.HTTP_503_SERVICE_UNAVAILABLE <> Main.HTTP_400_BAD_REQUEST /\
  Main.is_client_error Main.HTTP_503_SERVICE_UNAVAILABLE = false.
Proof.
  intros Hnl.
  assert (Hraise : DispatchModel.predict model (map dict body)
                   = Raise DispatchModel.ModelUnavailableError).
  { unfold DispatchModel.predict, DispatchModel.is_loaded in *.
    destruct (DispatchModel.state model); [reflexivity | discriminate | reflexivity]. }
  assert (Hresp : Main.predict model body
                  = Main.HTTPException Main.HTTP_503_SERVICE_UNAVAILABLE
                      "Model not available: Model not loaded").
  { unfold Main.predict. rewrite Hraise. reflexivity. }
  split; [exact Hraise |]. split; [exact Hresp |].
  split; [intros Hv; unfold Main.api_predict; rewrite Hv; exact Hresp |].
  repeat split; discriminate.
Qed.

(** C1.  For a request that passes validation (so it has at least one
    candidate) and a store that holds an artifact with the trained columns,
    the endpoint answers 200 with: [best_index] the index of the first
    maximum of the regressor's unrounded scores, inside the range of the
    list; as many scores as candidates; and as [scores] the unrounded
    scores rounded to two decimals, a rounding applied to the scores only
    and after [best_index] was taken, under which the score at [best_index]
    is still not below any other.  Rounded to two decimals means: every
    score of the payload is a whole number of hundredths, lies within half
    a hundredth of the unrounded score at its index, and is the even
    hundredth when the unrounded score is halfway between two. *)
Theorem predict_best_index_on_raw_scores
    (model : DispatchModel.t) (art : ModelData) (body : list CandidateRequest) :
  DispatchModel.state model = DispatchModel.Loaded art ->
  md_features art = feature_columns ->
  validate_predict_request body = [] ->
  let raw := map (fun c => rf_predict (md_model art) (feature_vector c)) body in
  exists (response : PredictResponse) (details : list PredictionResult) (m : Q),
    DispatchModel.predict model (map dict body)
    = Return (DispatchModel.argmax raw, raw, details) /\
    Main.api_predict model body = Main.Ok response /\
    best_index response = DispatchModel.argmax raw /\
    scores response = map Main.round2 raw /\
    (1 <= length body)%nat /\
    (best_index response < length body)%nat /\
    length (scores response) = length body /\
    nth_error raw (best_index response) = Some m /\
    (forall (i : nat) (y : Q), nth_error raw i = Some y -> y <= m) /\
    (forall (i : nat) (y : Q),
        (i < best_index response)%nat -> nth_error raw i = Some y -> y < m) /\
    nth_error (scores response) (best_index response) = Some (Main.round2 m) /\
    (forall (i : nat) (y : Q),
        nth_error (scores response) i = Some y -> y <= Main.round2 m) /\
    (forall (i : nat) (x y : Q),
        nth_error raw i = Some x -> nth_error (scores response) i = Some y ->
        exists k : Z,
          y == inject_Z k / 100 /\
          x - (1 # 200) <= y <= x + (1 # 200) /\
          (forall j : Z, x * 100 == inject_Z j + (1 # 2) -> Z.even k = true)).
Proof.
  intros Hst Hfeat Hvalid raw.
  pose proof (valid_request_nonempty body Hvalid) as Hne.
  destruct (store_predict_loaded model art body Hst Hfeat Hne) as [details Hp].
  fold raw in Hp.
  assert (Hraw : raw <> []).
  { unfold raw. destruct body; [congruence | discriminate]. }
  destruct (argmax_spec raw Hraw) as [m [Hm [Hmax Hfirst]]].
  exists {| best_index := DispatchModel.argmax raw;
            scores := map Main.round2 raw;
            predictions := details |}, details, m.
  cbn [best_index scores].
  split; [exact Hp |].
  split; [unfold Main.api_predict, Main.predict; rewrite Hvalid, Hp; reflexivity |].
  split; [reflexivity |]. split; [reflexivity |].
  assert (Hlen : length raw = length body) by (unfold raw; apply length_map).
  split; [destruct body; [congruence | simpl; lia] |].
  split; [rewrite <- Hlen; apply argmax_in_range; exact Hraw |].
  split; [rewrite length_map; exact Hlen |].
  split; [exact Hm |]. split; [exact Hmax |]. split; [exact Hfirst |].
  split; [rewrite nth_error_map, Hm; reflexivity |].
  split.
  - intros i y Hy. rewrite nth_error_map in Hy.
    destruct (nth_error raw i) as [x |] eqn:Hx; [| discriminate].
    injection Hy as <-. apply round2_mono. exact (Hmax i x Hx).
  - intros i x y Hx Hy. rewrite nth_error_map, Hx in Hy.
    injection Hy as <-. apply round2_spec.
Qed.

End PredictFacts.

Lemma predict_without_model_is_503_witness :
  DispatchModel.is_loaded Sample.empty_store = false /\
  Main.api_predict Sample.empty_store [Sample.candidate_a; Sample.candidate_b]
  = Main.HTTPException 503 "Model not available: Model not loaded".
Proof.
  split; [reflexivity |].
  exact (proj1 (proj2 (proj2
    (predict_without_model_is_503 Sample.empty_store
       [Sample.candidate_a; Sample.candidate_b] eq_refl))) eq_refl).
Defined.

Lemma predict_best_index_on_raw_scores_witness :
  DispatchModel.state Sample.loaded_store
  = DispatchModel.Loaded (Sample.model_data 42) /\
  Schemas.validate_predict_request [Sample.candidate_a; Sample.candidate_b] = [] /\
  exists response,
    Main.api_predict Sample.loaded_store [Sample.candidate_a; Sample.candidate_b]
    = Main.Ok response /\
    Schemas.best_index response = 0%nat /\
    length (Schemas.scores response) = 2%nat /\
    nth_error
      (map (fun c => rf_predict (md_model (Sample.model_data 42))
                       (Schemas.feature_vector c))
         [Sample.candidate_a; Sample.candidate_b]) 0
    = Some (334950 # 10000) /\
    nth_error (Schemas.scores response) 0 = Some (3350 # 100).
Proof.
  split; [reflexivity |]. split; [reflexivity |].
  destruct (predict_best_index_on_raw_scores Sample.loaded_store
              (Sample.model_data 42) [Sample.candidate_a; Sample.candidate_b]
              eq_refl eq_refl eq_refl)
    as [response [details [m [_ [Hr [Hb [Hs [_ [_ [Hlen _]]]]]]]]]].
  exists response.
  split; [exact Hr |]. split; [rewrite Hb; vm_compute; reflexivity |].
  split; [exact Hlen |].
  split; [vm_compute; reflexivity |].
  rewrite Hs. vm_compute. reflexivity.
Defined.

Example rounding_before_ranking_would_differ :
  DispatchModel.argmax [1001 # 1000; 1004 # 1000] = 1%nat /\
  DispatchModel.argmax (map Main.round2 [1001 # 1000; 1004 # 1000]) = 0%nat.
Proof. split; vm_compute; reflexivity. Qed.

(* ===================================================================== *)
(** * The rule-based label *)
(* ===================================================================== *)

Section SeriesFacts.

Lemma smax_fin (x : Q) (l : list Q) :
  smax (map Fin (x :: l)) = Fin (qmaxl x l).
Proof.
  revert x. induction l as [| y l IH]; intros x; [reflexivity |].
  change (smax (map Fin (x :: y :: l)))
    with (fmax2 (Fin x) (smax (map Fin (y :: l)))).
  rewrite IH. reflexivity.
Qed.

Lemma smin_fin (x : Q) (l : list Q) :
  smin (map Fin (x :: l)) = Fin (qminl x l).
Proof.
  revert x. induction l as [| y l IH]; intros x; [reflexivity |].
  change (smin (map Fin (x :: y :: l)))
    with (fmin2 (Fin x) (smin (map Fin (y :: l)))).
  rewrite IH. reflexivity.
Qed.

Lemma smax_of_fin (l : list Q) : l <> [] -> smax (map Fin l) = Fin (qmax_of l).
Proof. destruct l; [congruence | intros _; apply smax_fin]. Qed.

Lemma smin_of_fin (l : list Q) : l <> [] -> smin (map Fin l) = Fin (qmin_of l).
Proof. destruct l; [congruence | intros _; apply smin_fin]. Qed.

Lemma qmaxl_upper (l : list Q) :
  forall x y, In y (x :: l) -> y <= qmaxl x l.
Proof.
  induction l as [| z l IH]; intros x y Hin.
  - destruct Hin as [<- | []]. apply Qle_refl.
  - simpl. destruct Hin as [<- | Hin].
    + apply Q.le_max_l.
    + eapply Qle_trans; [apply (IH z y Hin) | apply Q.le_max_r].
Qed.

Lemma qminl_lower (l : list Q) :
  forall x y, In y (x :: l) -> qminl x l <= y.
Proof.
  induction l as [| z l IH]; intros x y Hin.
  - destruct Hin as [<- | []]. apply Qle_refl.
  - simpl. destruct Hin as [<- | Hin].
    + apply Q.le_min_l.
    + eapply Qle_trans; [apply Q.le_min_r | apply (IH z y Hin)].
Qed.

Lemma qmax_of_upper (l : list Q) (y : Q) : In y l -> y <= qmax_of l.
Proof. destruct l; [intros [] | apply qmaxl_upper]. Qed.

Lemma qmin_of_lower (l : list Q) (y : Q) : In y l -> qmin_of l <= y.
Proof. destruct l; [intros [] | apply qminl_lower]. Qed.

(** [qclip] lands between its bounds. *)
Lemma qclip_bounds (lo hi q : Q) : lo <= hi -> lo <= qclip lo hi q <= hi.
Proof.
  intros Hlh. unfold qclip. split.
  - apply Q.min_glb; [apply Q.le_max_r | exact Hlh].
  - apply Q.le_min_r.
Qed.

End SeriesFacts.

Section LabelFacts.

Lemma fdiv_fin (a b : Q) : ~ b == 0 -> fdiv (Fin a) (Fin b) = Fin (a / b).
Proof.
  intros Hb. unfold fdiv. destruct (Qeq_bool b 0) eqn:E; [| reflexivity].
  apply Qeq_bool_iff in E. contradiction.
Qed.

Lemma distance_col_fin (df : DataFrame) :
  distance_col df = map Fin (map distance_m df).
Proof. unfold distance_col. rewrite map_map. reflexivity. Qed.

Lemma history_col_fin (df : DataFrame) :
  history_col df = map Fin (map (fun r => inject_Z (fault_history r)) df).
Proof. unfold history_col. rewrite map_map. reflexivity. Qed.

Lemma map_nonempty {A B : Type} (f : A -> B) (l : list A) :
  l <> [] -> map f l <> [].
Proof. destruct l; [congruence | discriminate]. Qed.

(** A column without negative entries has a maximum that is not negative. *)
Lemma qmax_of_nonneg (l : list Q) :
  l <> [] -> (forall y, In y l -> 0 <= y) -> 0 <= qmax_of l.
Proof.
  intros Hne Hpos. destruct l as [| x l]; [congruence |].
  eapply Qle_trans; [apply (Hpos x); left; reflexivity |].
  apply qmax_of_upper. left. reflexivity.
Qed.

Section ClosedForm.
Variable df : DataFrame.
Hypothesis df_nonempty : df <> [].
Hypothesis df_nonneg :
  forall r, In r df -> 0 <= distance_m r /\ (0 <= fault_history r)%Z.

Lemma max_distance_eps_pos : 0 < max_distance df + eps.
Proof.
  assert (H0 : 0 <= max_distance df).
  { apply qmax_of_nonneg; [apply map_nonempty; exact df_nonempty |].
    intros y Hy. apply in_map_iff in Hy. destruct Hy as [r [<- Hr]].
    apply df_nonneg. exact Hr. }
  unfold eps. lra.
Qed.

Lemma max_history_eps_pos : 0 < max_history df + eps.
Proof.
  assert (H0 : 0 <= max_history df).
  { apply qmax_of_nonneg; [apply map_nonempty; exact df_nonempty |].
    intros y Hy. apply in_map_iff in Hy. destruct Hy as [r [<- Hr]].
    change 0 with (inject_Z 0). rewrite <- Zle_Qle. apply df_nonneg. exact Hr. }
  unfold eps. lra.
Qed.

Lemma dist_score_closed (r : Row) : dist_score df r = Fin (q_dist_score df r).
Proof.
  unfold dist_score. rewrite distance_col_fin, smax_of_fin
    by (apply map_nonempty; exact df_nonempty).
  cbn [fadd]. rewrite fdiv_fin; [reflexivity |].
  pose proof max_distance_eps_pos. unfold max_distance in *. lra.
Qed.

Lemma fh_score_closed (r : Row) : fh_score df r = Fin (q_fh_score df r).
Proof.
  unfold fh_score. rewrite history_col_fin, smax_of_fin
    by (apply map_nonempty; exact df_nonempty).
  cbn [fadd]. rewrite fdiv_fin; [reflexivity |].
  pose proof max_history_eps_pos. unfold max_history in *. lra.
Qed.

Lemma rule_score_closed (r : Row) : rule_score df r = Fin (q_rule_score df r).
Proof.
  unfold rule_score. rewrite dist_score_closed, fh_score_closed. reflexivity.
Qed.

Lemma rule_scores_closed :
  rule_scores df = map Fin (map (q_rule_score df) df).
Proof.
  unfold rule_scores. rewrite map_map. apply map_ext. apply rule_score_closed.
Qed.

Lemma q_rule_score_between (r : Row) :
  In r df -> q_rule_min df <= q_rule_score df r <= q_rule_max df.
Proof.
  intros Hr. split.
  - apply qmin_of_lower. apply in_map. exact Hr.
  - apply qmax_of_upper. apply in_map. exact Hr.
Qed.

Hypothesis df_spread : ~ q_rule_max df == q_rule_min df.

Lemma calculate_closed :
  calculate_rule_based_score df = map (fun r => Fin (q_label df r)) df.
Proof.
  unfold calculate_rule_based_score. rewrite rule_scores_closed.
  rewrite smin_of_fin, smax_of_fin
    by (apply map_nonempty; exact df_nonempty).
  rewrite !map_map. apply map_ext. intros r.
  unfold normalize, fsub. cbn [fneg fadd].
  rewrite fdiv_fin; [reflexivity |].
  fold (q_rule_max df) (q_rule_min df). lra.
Qed.

Lemma q_label_bounds (r : Row) : In r df -> 0 <= q_label df r <= 100.
Proof.
  intros Hr. destruct (q_rule_score_between r Hr) as [Hlo Hhi].
  assert (Hpos : 0 < q_rule_max df - q_rule_min df) by lra.
  unfold q_label.
  set (t := (q_rule_score df r - q_rule_min df)
            / (q_rule_max df - q_rule_min df)).
  assert (Ht0 : 0 <= t) by (apply Qle_shift_div_l; [exact Hpos | lra]).
  assert (Ht1 : t <= 1) by (apply Qle_shift_div_r; [exact Hpos | lra]).
  lra.
Qed.

End ClosedForm.

(** C5, as amended.  For a table with at least one row, without negative
    distances or fault counts, and whose weighted sums are not all equal:
    the label of each row is computed from the sub-scores
    distance [1 - distance / (max_distance + 1e-6)], fault history
    [history / (max_history + 1e-6)] and fatigue [1 - fatigue / 24], each
    clipped to [[0, 1]], severity [severity / 3] and performance
    [perf / 10], combined with the weights 0.45, 0.25, 0.15, 0.05 and 0.10
    (which sum to 1), and the weighted sum [s] is normalized over the table
    as [(s - min) / (max - min) * 100], a number in [[0, 100]]. *)
Theorem rule_label_formula (df : DataFrame) :
  df <> [] ->
  (forall r, In r df -> 0 <= distance_m r /\ (0 <= fault_history r)%Z) ->
  ~ q_rule_max df == q_rule_min df ->
  w_distance + w_fault_history + w_fatigue + w_severity + w_perf == 1 /\
  rule_scores df = map (fun r => Fin (q_rule_score df r)) df /\
  calculate_rule_based_score df = map (fun r => Fin (q_label df r)) df /\
  Forall (within 0 100) (calculate_rule_based_score df) /\
  (forall r, In r df ->
     0 <= q_dist_score df r <= 1 /\
     0 <= q_fh_score df r <= 1 /\
     0 <= q_fatigue_score r <= 1 /\
     0 <= q_label df r <= 100).
Proof.
  intros Hne Hpos Hspread.
  split; [reflexivity |].
  split; [rewrite rule_scores_closed, map_map by assumption; reflexivity |].
  split; [apply calculate_closed; assumption |].
  split.
  - rewrite calculate_closed by assumption.
    apply List.Forall_forall. intros x Hx. apply in_map_iff in Hx.
    destruct Hx as [r [<- Hr]]. apply q_label_bounds; assumption.
  - intros r Hr.
    split; [apply qclip_bounds; discriminate |].
    split; [apply qclip_bounds; discriminate |].
    split; [apply qclip_bounds; discriminate |].
    apply q_label_bounds; assumption.
Qed.

End LabelFacts.

Lemma rule_label_formula_witness :
  Sample.table3 <> [] /\
  ~ q_rule_max Sample.table3 == q_rule_min Sample.table3 /\
  calculate_rule_based_score Sample.table3
  = map (fun r => Fin (q_label Sample.table3 r)) Sample.table3 /\
  Forall (within 0 100) (calculate_rule_based_score Sample.table3).
Proof.
  assert (Hspread : ~ q_rule_max Sample.table3 == q_rule_min Sample.table3)
    by (apply Qeq_bool_neq; vm_compute; reflexivity).
  assert (Hpos : forall r, In r Sample.table3 ->
                   0 <= distance_m r /\ (0 <= fault_history r)%Z).
  { intros r [<- | [<- | [<- | []]]]; split;
      solve [ apply Qle_bool_iff; reflexivity | simpl; lia ]. }
  assert (Hne : Sample.table3 <> []) by discriminate.
  split; [exact Hne |]. split; [exact Hspread |].
  pose proof (rule_label_formula Sample.table3 Hne Hpos Hspread)
    as [_ [_ [Hcalc [Hrange _]]]].
  split; [exact Hcalc | exact Hrange].
Defined.

Section SpecFormula.

Lemma feq_feqb (x y : fnum) : feq x y -> feqb x y = true.
Proof.
  destruct x, y; simpl; try contradiction; try reflexivity.
  intros Heq. apply Qeq_bool_iff. exact Heq.
Qed.

Lemma series_feq_eqb (s1 s2 : list fnum) :
  Forall2 feq s1 s2 -> series_eqb s1 s2 = true.
Proof.
  induction 1 as [| x y s1 s2 Hxy _ IH]; [reflexivity |].
  simpl. rewrite (feq_feqb x y Hxy), IH. reflexivity.
Qed.

End SpecFormula.

(** C5, as stated, fails.  On a table of three rows the labels the code
    computes differ from those of the formula with the plain maxima in the
    denominators: the code adds [1e-6] to both maxima. *)
Lemma rule_label_not_as_specified : ~ label_as_specified Sample.table3.
Proof.
  intros [Hsame _]. apply series_feq_eqb in Hsame.
  assert (Hdiff : series_eqb (calculate_rule_based_score Sample.table3)
                    (spec_rule_label Sample.table3) = false)
    by (vm_compute; reflexivity).
  rewrite Hdiff in Hsame. discriminate Hsame.
Qed.

(* ===================================================================== *)
(** * The unguarded normalization *)
(* ===================================================================== *)

Section DegenerateFacts.

Lemma fclip_finite (lo hi : Q) (x : fnum) :
  x <> NaN -> exists q, fclip lo hi x = Fin q.
Proof. destruct x; simpl; intros Hx; [eauto | eauto | eauto | congruence]. Qed.

Lemma fsub_fin_not_nan (a : Q) (x : fnum) : x <> NaN -> fsub (Fin a) x <> NaN.
Proof. destruct x; simpl; intros Hx; congruence. Qed.

Lemma fdiv_not_nan (a b : Q) :
  (b == 0 -> a < 0) -> fdiv (Fin a) (Fin b) <> NaN.
Proof.
  intros Hb. unfold fdiv. destruct (Qeq_bool b 0) eqn:E; [| discriminate].
  apply Qeq_bool_iff in E. specialize (Hb E).
  assert (E2 : (a ?= 0) = Lt) by (apply Qlt_alt; exact Hb).
  rewrite E2. discriminate.
Qed.

(** The divisor [max + 1e-6] can only vanish under a negative entry. *)
Lemma quotient_by_max_not_nan (l : list Q) (y : Q) :
  In y l -> fdiv (Fin y) (Fin (qmax_of l + eps)) <> NaN.
Proof.
  intros Hin. apply fdiv_not_nan. intros Hz.
  pose proof (qmax_of_upper l y Hin). unfold eps in *. lra.
Qed.

(** Every weighted sum of a table's own rows is a finite number. *)
Lemma rule_score_finite (df : DataFrame) (r : Row) :
  In r df -> exists q, rule_score df r = Fin q.
Proof.
  intros Hr.
  assert (Hne : df <> []) by (destruct df; [destruct Hr | discriminate]).
  assert (Hd : exists q, dist_score df r = Fin q).
  { unfold dist_score. apply fclip_finite, fsub_fin_not_nan.
    rewrite distance_col_fin, smax_of_fin by (apply map_nonempty; exact Hne).
    cbn [fadd]. apply quotient_by_max_not_nan. apply in_map. exact Hr. }
  assert (Hh : exists q, fh_score df r = Fin q).
  { unfold fh_score. apply fclip_finite.
    rewrite history_col_fin, smax_of_fin by (apply map_nonempty; exact Hne).
    cbn [fadd]. apply quotient_by_max_not_nan.
    apply (in_map (fun r => inject_Z (fault_history r))). exact Hr. }
  destruct Hd as [qd Hd], Hh as [qh Hh].
  unfold rule_score. rewrite Hd, Hh. eexists. reflexivity.
Qed.

Lemma constant_series (q0 : Q) (rs : list fnum) :
  rs <> [] ->
  Forall (fun x => exists q, x = Fin q /\ q == q0) rs ->
  exists a b, smin rs = Fin a /\ smax rs = Fin b /\ a == q0 /\ b == q0.
Proof.
  induction rs as [| x rs IH]; [congruence | intros _ Hall].
  inversion Hall as [| x' rs' [q [-> Hq]] Hrest]; subst.
  destruct rs as [| y rs].
  - exists q, q. repeat split; assumption.
  - destruct (IH ltac:(discriminate) Hrest) as [a [b [Ha [Hb [Haq Hbq]]]]].
    exists (Qmin q a), (Qmax q b).
    change (smin (Fin q :: y :: rs)) with (fmin2 (Fin q) (smin (y :: rs))).
    change (smax (Fin q :: y :: rs)) with (fmax2 (Fin q) (smax (y :: rs))).
    rewrite Ha, Hb. split; [reflexivity |]. split; [reflexivity |]. split.
    + destruct (Q.min_spec q a) as [[_ ->] | [_ ->]]; assumption.
    + destruct (Q.max_spec q b) as [[_ ->] | [_ ->]]; assumption.
Qed.

Lemma normalize_degenerate (a b q : Q) :
  a == b -> q == a -> normalize (Fin a) (Fin b) (Fin q) = NaN.
Proof.
  intros Hab Hqa. unfold normalize, fsub. cbn [fneg fadd]. unfold fdiv.
  assert (E1 : Qeq_bool (b + - a) 0 = true) by (apply Qeq_bool_iff; lra).
  assert (E2 : (q + - a ?= 0) = Eq) by (apply Qeq_alt; lra).
  rewrite E1, E2. reflexivity.
Qed.

(** C10.  In a table all of whose rows have the same weighted rule score,
    a table of one row for instance, the divisor [max - min] of the
    normalization is zero and so is every dividend: every label is
    not-a-number, none a score in [[0, 100]]. *)
Theorem equal_rule_scores_divide_by_zero (df : DataFrame) (r0 : Row) :
  In r0 df ->
  (forall r, In r df -> feq (rule_score df r) (rule_score df r0)) ->
  feq (fsub (smax (rule_scores df)) (smin (rule_scores df))) (Fin 0) /\
  length (calculate_rule_based_score df) = length df /\
  Forall (fun x => x = NaN) (calculate_rule_based_score df) /\
  Forall (fun x => ~ within 0 100 x) (calculate_rule_based_score df).
Proof.
  intros Hr0 Hconst.
  destruct (rule_score_finite df r0 Hr0) as [q0 Hq0].
  assert (Hall : Forall (fun x => exists q, x = Fin q /\ q == q0) (rule_scores df)).
  { apply List.Forall_forall. intros x Hx. apply in_map_iff in Hx.
    destruct Hx as [r [<- Hr]]. specialize (Hconst r Hr).
    destruct (rule_score_finite df r Hr) as [q Hq].
    rewrite Hq, Hq0 in Hconst. exists q. split; [exact Hq | exact Hconst]. }
  assert (Hne : rule_scores df <> []).
  { unfold rule_scores. apply map_nonempty.
    destruct df; [destruct Hr0 | discriminate]. }
  destruct (constant_series q0 _ Hne Hall) as [a [b [Ha [Hb [Haq Hbq]]]]].
  assert (Hnan : Forall (fun x => x = NaN) (calculate_rule_based_score df)).
  { unfold calculate_rule_based_score. rewrite Ha, Hb.
    apply List.Forall_forall. intros x Hx. apply in_map_iff in Hx.
    destruct Hx as [y [<- Hy]].
    rewrite List.Forall_forall in Hall. destruct (Hall y Hy) as [q [-> Hq]].
    apply normalize_degenerate; lra. }
  split; [rewrite Ha, Hb; simpl; lra |].
  split; [unfold calculate_rule_based_score, rule_scores;
          rewrite !length_map; reflexivity |].
  split; [exact Hnan |].
  eapply List.Forall_impl; [| exact Hnan]. intros x -> Hw. exact Hw.
Qed.

End DegenerateFacts.

Lemma equal_rule_scores_divide_by_zero_witness :
  In (Sample.row 500 7 1 4 2) Sample.table1 /\
  calculate_rule_based_score Sample.table1 = [NaN] /\
  Forall (fun x => ~ within 0 100 x) (calculate_rule_based_score Sample.table1).
Proof.
  assert (Hin : In (Sample.row 500 7 1 4 2) Sample.table1)
    by (left; reflexivity).
  assert (Hconst : forall r, In r Sample.table1 ->
            feq (rule_score Sample.table1 r)
                (rule_score Sample.table1 (Sample.row 500 7 1 4 2))).
  { intros r [<- | []]. vm_compute. reflexivity. }
  split; [exact Hin |].
  pose proof (equal_rule_scores_divide_by_zero Sample.table1 _ Hin Hconst)
    as [_ [_ [Hnan Hout]]].
  split; [| exact Hout].
  vm_compute. reflexivity.
Defined.

(* ===================================================================== *)
(** * Further properties of the training script *)
(* ===================================================================== *)

Section BucketFacts.

Lemma dist_cat_range (m : Q) : (0 <= dist_cat m <= 2)%Z.
Proof.
  unfold dist_cat.
  destruct (Qlt_le_dec m 1000); [lia |]. destruct (Qlt_le_dec m 5000); lia.
Qed.

(** X1.  [dist_cat] puts a distance below 1000 in bucket 0, one from 1000
    up to but excluding 5000 in bucket 1 and every other one in bucket 2;
    it has no other value. *)
Theorem dist_cat_buckets (m : Q) :
  (dist_cat m = 0%Z <-> m < 1000) /\
  (dist_cat m = 1%Z <-> 1000 <= m /\ m < 5000) /\
  (dist_cat m = 2%Z <-> 5000 <= m) /\
  (0 <= dist_cat m <= 2)%Z.
Proof.
  unfold dist_cat.
  destruct (Qlt_le_dec m 1000) as [H1 | H1];
    [| destruct (Qlt_le_dec m 5000) as [H5 | H5]];
    repeat split; intros; try lia; try lra; try discriminate;
    try (exfalso; lra).
Qed.

(** X2.  A longer distance never falls in a lower bucket. *)
Theorem dist_cat_monotone (m1 m2 : Q) :
  m1 <= m2 -> (dist_cat m1 <= dist_cat m2)%Z.
Proof.
  intros Hle. unfold dist_cat.
  destruct (Qlt_le_dec m1 1000); destruct (Qlt_le_dec m2 1000);
    destruct (Qlt_le_dec m1 5000); destruct (Qlt_le_dec m2 5000);
    try lia; exfalso; lra.
Qed.

End BucketFacts.

Lemma dist_cat_monotone_witness :
  999 <= 5000 /\ (dist_cat 999 <= dist_cat 5000)%Z.
Proof.
  assert (Hle : 999 <= 5000) by (apply Qle_bool_iff; reflexivity).
  split; [exact Hle | exact (dist_cat_monotone 999 5000 Hle)].
Defined.

Section GeneratorFacts.
Context `{NR : NumpyRandom}.

Lemma sample_length {A : Type} (draw : rng -> A * rng) (n : nat) (g : rng) :
  length (fst (sample draw n g)) = n.
Proof.
  revert g. induction n as [| n IH]; intros g; [reflexivity |].
  simpl. destruct (draw g) as [x g1]. specialize (IH g1).
  destruct (sample draw n g1) as [xs g2]. simpl in *. rewrite IH. reflexivity.
Qed.

Lemma draw_size_run {A : Type} (draw : rng -> A * rng) (n : Z) (w : World) :
  (0 <= n)%Z ->
  draw_size draw n w
  = (Return (fst (sample draw (Z.to_nat n) (np_random w))),
     set_np_random (snd (sample draw (Z.to_nat n) (np_random w))) w).
Proof.
  intros Hn. unfold draw_size.
  destruct (Z.ltb_spec n 0) as [Hneg | _]; [lia |].
  destruct (sample draw (Z.to_nat n) (np_random w)). reflexivity.
Qed.

Lemma draw_size_negative {A : Type} (draw : rng -> A * rng) (n : Z) (w : World) :
  (n < 0)%Z ->
  draw_size draw n w
  = (Raise (ValueError "negative dimensions are not allowed"), w).
Proof.
  intros Hn. unfold draw_size.
  destruct (Z.ltb_spec n 0) as [_ | Hpos]; [reflexivity | lia].
Qed.

Lemma seed_in_range_spec (s : Z) :
  seed_in_range s = true <-> (0 <= s < 2 ^ 32)%Z.
Proof.
  unfold seed_in_range.
  destruct (Z.leb_spec 0 s); destruct (Z.ltb_spec s (2 ^ 32)); simpl;
    split; intros H1; try discriminate H1; try reflexivity; lia.
Qed.

Lemma valid_seed_dec (s : option Z) : {valid_seed s} + {~ valid_seed s}.
Proof.
  destruct s as [s |]; simpl; [| left; exact I].
  destruct (Z_le_dec 0 s); [destruct (Z_lt_dec s (2 ^ 32)) |];
    [left | right | right]; lia.
Qed.

Lemma np_random_seed_valid (s : option Z) (w : World) :
  valid_seed s ->
  np_random_seed s w = (Return tt, seeded s w).
Proof.
  intros Hs. unfold np_random_seed. destruct s as [s |]; [| reflexivity].
  apply seed_in_range_spec in Hs. rewrite Hs. reflexivity.
Qed.

Lemma np_random_seed_invalid (s : option Z) (w : World) :
  ~ valid_seed s ->
  np_random_seed s w
  = (Raise (ValueError "Seed must be between 0 and 2**32 - 1"), w).
Proof.
  intros Hs. unfold np_random_seed.
  destruct s as [s |]; [| destruct (Hs I)].
  destruct (seed_in_range s) eqn:Hr; [| reflexivity].
  apply seed_in_range_spec in Hr. destruct (Hs Hr).
Qed.

Lemma seeded_keeps_files (s : option Z) (w : World) :
  disk (seeded s w) = disk w /\ dirs (seeded s w) = dirs w.
Proof. destruct s; split; reflexivity. Qed.

Lemma data_frame_length (dist perf : list Q) (hist fat sev : list Z) (k : nat) :
  length dist = k -> length perf = k -> length hist = k ->
  length fat = k -> length sev = k ->
  length (data_frame dist perf hist fat sev) = k.
Proof.
  revert perf hist fat sev k.
  induction dist as [| d dist IH]; intros perf hist fat sev k Hd Hp Hh Hf Hs.
  - simpl in Hd. subst k. reflexivity.
  - destruct k as [| k]; [discriminate |].
    destruct perf as [| p perf]; [discriminate |].
    destruct hist as [| h hist]; [discriminate |].
    destruct fat as [| f fat]; [discriminate |].
    destruct sev as [| s sev]; [discriminate |].
    simpl in *. f_equal. apply IH; congruence.
Qed.

(** Where the entries of a row of the frame come from. *)
Lemma data_frame_rows (dist perf : list Q) (hist fat sev : list Z) (r : Row) :
  In r (data_frame dist perf hist fat sev) ->
  distance_cat r = dist_cat (distance_m r) /\
  In (past_perf r) perf /\
  (exists f, In f fat /\ fatigue_h r = inject_Z f) /\
  In (distance_m r) dist /\ In (fault_history r) hist /\
  In (fault_severity r) sev.
Proof.
  revert perf hist fat sev.
  induction dist as [| d dist IH]; intros perf hist fat sev Hin; [destruct Hin |].
  destruct perf as [| p perf]; [destruct Hin |].
  destruct hist as [| h hist]; [destruct Hin |].
  destruct fat as [| f fat]; [destruct Hin |].
  destruct sev as [| s sev]; [destruct Hin |].
  destruct Hin as [<- | Hin].
  - simpl. repeat split; try (left; reflexivity).
    exists f. split; [left; reflexivity | reflexivity].
  - destruct (IH _ _ _ _ Hin) as [Hc [Hp [[f' [Hf Hfe]] [Hd [Hh Hs]]]]].
    repeat split; try (right; assumption); try assumption.
    exists f'. split; [right; exact Hf | exact Hfe].
Qed.

(** The run of [generate_synthetic_data] on a seed numpy accepts and a
    size that is not negative. *)
Lemma generate_run (n : Z) (seed : option Z) (w : World) :
  valid_seed seed -> (0 <= n)%Z ->
  exists (faults : list Z) (dist perf : list Q) (hist sev : list Z) (g : rng),
    generate_synthetic_data n seed w
    = (Return (data_frame dist (map (qclip 1 10) perf) hist
                 (map (fun f => zclip 0 24 (f * 2)) faults) sev),
       set_np_random g (seeded seed w)) /\
    length faults = Z.to_nat n /\ length dist = Z.to_nat n /\
    length perf = Z.to_nat n /\ length hist = Z.to_nat n /\
    length sev = Z.to_nat n.
Proof.
  intros Hseed Hn. unfold generate_synthetic_data, bind.
  rewrite np_random_seed_valid by exact Hseed.
  rewrite draw_size_run by exact Hn. cbn [np_random set_np_random].
  set (s1 := sample (poisson 3) (Z.to_nat n) (np_random (seeded seed w))).
  rewrite draw_size_run by exact Hn. cbn [np_random set_np_random].
  set (s2 := sample (exponential 2000) (Z.to_nat n) (snd s1)).
  rewrite draw_size_run by exact Hn. cbn [np_random set_np_random].
  set (s3 := sample (normal 7 (15 # 10)) (Z.to_nat n) (snd s2)).
  rewrite draw_size_run by exact Hn. cbn [np_random set_np_random].
  set (s4 := sample (poisson 1) (Z.to_nat n) (snd s3)).
  rewrite draw_size_run by exact Hn. cbn [np_random set_np_random].
  set (s5 := sample (choice [1; 2; 3]%Z) (Z.to_nat n) (snd s4)).
  exists (fst s1), (fst s2), (fst s3), (fst s4), (fst s5), (snd s5).
  split; [reflexivity |].
  unfold s1, s2, s3, s4, s5. rewrite !sample_length. repeat split.
Qed.

Lemma generate_rows (n : Z) (seed : option Z) (w : World) :
  valid_seed seed -> (0 <= n)%Z ->
  exists (df : DataFrame) (w' : World),
    generate_synthetic_data n seed w = (Return df, w') /\
    length df = Z.to_nat n /\
    disk w' = disk w /\ dirs w' = dirs w.
Proof.
  intros Hseed Hn.
  destruct (generate_run n seed w Hseed Hn)
    as [faults [dist [perf [hist [sev [g [Hrun [Hf [Hd [Hp [Hh Hs]]]]]]]]]]].
  eexists. eexists. split; [exact Hrun |].
  split; [| exact (seeded_keeps_files seed w)].
  apply data_frame_length; rewrite ?length_map; assumption.
Qed.

(** X3.  On a seed that numpy accepts (an integer in [[0, 2**32 - 1]], or
    [None]) and a size that is not negative, [generate_synthetic_data]
    returns a table of exactly [n] rows and touches neither files nor
    directories. *)
Theorem generate_row_count (n : Z) (seed : option Z) (w : World) :
  valid_seed seed -> (0 <= n)%Z ->
  exists (df : DataFrame) (w' : World),
    generate_synthetic_data n seed w = (Return df, w') /\
    length df = Z.to_nat n /\
    disk w' = disk w /\ dirs w' = dirs w.
Proof.
  intros Hseed Hn.
  destruct (generate_run n seed w Hseed Hn)
    as [faults [dist [perf [hist [sev [g [Hrun [Hf [Hd [Hp [Hh Hs]]]]]]]]]]].
  exists (data_frame dist (map (qclip 1 10) perf) hist
            (map (fun f => zclip 0 24 (f * 2)) faults) sev),
         (set_np_random g (seeded seed w)).
  split; [exact Hrun |].
  split; [| exact (seeded_keeps_files seed w)].
  apply data_frame_length; rewrite ?length_map; assumption.
Qed.

(** X4.  Every row of a table that [generate_synthetic_data] returns has
    its [past_perf] in [[1, 10]], its [fatigue_h] a whole number in
    [[0, 24]], and as [distance_cat] the bucket of its own [distance_m],
    whatever the generator draws. *)
Theorem generated_rows_in_range (n : Z) (seed : option Z) (w w' : World) (df : DataFrame) :
  generate_synthetic_data n seed w = (Return df, w') ->
  forall r, In r df ->
    1 <= past_perf r <= 10 /\
    0 <= fatigue_h r <= 24 /\
    (exists k : Z, fatigue_h r = inject_Z k) /\
    distance_cat r = dist_cat (distance_m r) /\
    (0 <= distance_cat r <= 2)%Z.
Proof.
  intros Hgen r Hr.
  assert (Hseed : valid_seed seed).
  { destruct (valid_seed_dec seed) as [H0 | H0]; [exact H0 | exfalso].
    unfold generate_synthetic_data, bind in Hgen.
    rewrite np_random_seed_invalid in Hgen by exact H0. discriminate Hgen. }
  assert (Hn : (0 <= n)%Z).
  { destruct (Z_le_dec 0 n) as [H0 | H0]; [exact H0 | exfalso].
    unfold generate_synthetic_data, bind in Hgen.
    rewrite np_random_seed_valid in Hgen by exact Hseed.
    rewrite draw_size_negative in Hgen by lia. discriminate Hgen. }
  destruct (generate_run n seed w Hseed Hn)
    as [faults [dist [perf [hist [sev [g [Hrun _]]]]]]].
  rewrite Hrun in Hgen. injection Hgen as <- _.
  destruct (data_frame_rows _ _ _ _ _ r Hr)
    as [Hcat [Hperf [[f [Hf Hfe]] _]]].
  apply in_map_iff in Hperf. destruct Hperf as [p [<- _]].
  apply in_map_iff in Hf. destruct Hf as [f0 [<- _]].
  split; [apply qclip_bounds; discriminate |].
  split.
  - rewrite Hfe. unfold zclip. change 0 with (inject_Z 0).
    change 24 with (inject_Z 24). rewrite <- !Zle_Qle. lia.
  - split; [eexists; exact Hfe |].
    split; [exact Hcat |]. rewrite Hcat. apply dist_cat_range.
Qed.

Lemma generate_refused_seed (n : Z) (seed : option Z) (w : World) :
  ~ valid_seed seed ->
  generate_synthetic_data n seed w
  = (Raise (ValueError "Seed must be between 0 and 2**32 - 1"), w).
Proof.
  intros Hs. unfold generate_synthetic_data, bind.
  rewrite np_random_seed_invalid by exact Hs. reflexivity.
Qed.

Lemma generate_negative_size (n : Z) (seed : option Z) (w : World) :
  valid_seed seed -> (n < 0)%Z ->
  generate_synthetic_data n seed w
  = (Raise (ValueError "negative dimensions are not allowed"),
     seeded seed w).
Proof.
  intros Hs Hn. unfold generate_synthetic_data, bind.
  rewrite np_random_seed_valid by exact Hs.
  rewrite draw_size_negative by exact Hn. reflexivity.
Qed.

(** X5.  [generate_synthetic_data] returns exactly when numpy accepts the
    seed (an integer in [[0, 2**32 - 1]], or [None]) and the size is not
    negative.  A refused seed leaves generator, files and directories
    untouched; a negative size is refused only after the generator has been
    reseeded. *)
Theorem generate_returns_iff (n : Z) (seed : option Z) (w : World) :
  ((exists df, fst (generate_synthetic_data n seed w) = Return df) <->
   valid_seed seed /\ (0 <= n)%Z) /\
  (~ valid_seed seed ->
   generate_synthetic_data n seed w
   = (Raise (ValueError "Seed must be between 0 and 2**32 - 1"), w)) /\
  (valid_seed seed -> (n < 0)%Z ->
   generate_synthetic_data n seed w
   = (Raise (ValueError "negative dimensions are not allowed"),
      seeded seed w)).
Proof.
  split; [| split; [apply generate_refused_seed | apply generate_negative_size]].
  split.
  - intros [df Hdf].
    destruct (valid_seed_dec seed) as [H0 | H0];
      [| rewrite generate_refused_seed in Hdf by exact H0; discriminate Hdf].
    destruct (Z_le_dec 0 n) as [Hn | Hn]; [split; assumption |].
    rewrite generate_negative_size in Hdf by (exact H0 || lia).
    discriminate Hdf.
  - intros [Hs Hn].
    destruct (generate_rows n seed w Hs Hn) as [df [w' [Hrun _]]].
    exists df. rewrite Hrun. reflexivity.
Qed.

End GeneratorFacts.

Lemma generate_row_count_witness :
  (0 <= 7 < 2 ^ 32)%Z /\ (0 <= 5)%Z /\
  exists df w',
    generate_synthetic_data (NR := Sample.random) 5 (Some 7%Z) Sample.world0
    = (Return df, w') /\
    length df = 5%nat.
Proof.
  assert (Hs : (0 <= 7 < 2 ^ 32)%Z) by (split; [discriminate | reflexivity]).
  assert (Hn : (0 <= 5)%Z) by discriminate.
  split; [exact Hs |]. split; [exact Hn |].
  destruct (generate_row_count (NR := Sample.random) 5 (Some 7%Z)
              Sample.world0 Hs Hn)
    as [df [w' [Hrun [Hlen _]]]].
  exists df, w'. split; [exact Hrun | exact Hlen].
Defined.

Lemma generated_rows_in_range_witness :
  exists df w' r,
    generate_synthetic_data (NR := Sample.random) 5 (Some 7%Z) Sample.world0
    = (Return df, w') /\
    In r df /\ 1 <= past_perf r <= 10 /\ 0 <= fatigue_h r <= 24.
Proof.
  assert (Hs : (0 <= 7 < 2 ^ 32)%Z) by (split; [discriminate | reflexivity]).
  assert (Hn : (0 <= 5)%Z) by discriminate.
  destruct (generate_rows (NR := Sample.random) 5 (Some 7%Z) Sample.world0
              Hs Hn)
    as [df [w' [Hrun [Hlen _]]]].
  destruct df as [| r df]; [discriminate Hlen |].
  exists (r :: df), w', r.
  split; [exact Hrun |]. split; [left; reflexivity |].
  destruct (generated_rows_in_range (NR := Sample.random) 5 (Some 7%Z)
              Sample.world0
              w' (r :: df) Hrun r (or_introl eq_refl)) as [Hp [Hf _]].
  split; [exact Hp | exact Hf].
Defined.

Lemma generate_returns_iff_witness :
  ~ (0 <= -1 < 2 ^ 32)%Z /\
  generate_synthetic_data (NR := Sample.random) 5 (Some (-1)%Z) Sample.world0
  = (Raise (ValueError "Seed must be between 0 and 2**32 - 1"), Sample.world0).
Proof.
  assert (Hs : ~ (0 <= -1 < 2 ^ 32)%Z) by (intros [H0 _]; apply H0; reflexivity).
  split; [exact Hs |].
  exact (proj1 (proj2 (generate_returns_iff (NR := Sample.random) 5
                         (Some (-1)%Z) Sample.world0)) Hs).
Defined.

(* ===================================================================== *)
(** * Further properties of the rule-based label *)
(* ===================================================================== *)

Section NormalizeFacts.

Lemma qminl_attained (l : list Q) :
  forall x, exists y, In y (x :: l) /\ y == qminl x l.
Proof.
  induction l as [| z l IH]; intros x.
  - exists x. split; [left; reflexivity | reflexivity].
  - simpl. destruct (IH z) as [y [Hy Hyq]].
    destruct (Q.min_spec x (qminl z l)) as [[_ Hm] | [_ Hm]].
    + exists x. split; [left; reflexivity | symmetry; exact Hm].
    + exists y. split; [right; exact Hy | rewrite Hm; exact Hyq].
Qed.

Lemma qmaxl_attained (l : list Q) :
  forall x, exists y, In y (x :: l) /\ y == qmaxl x l.
Proof.
  induction l as [| z l IH]; intros x.
  - exists x. split; [left; reflexivity | reflexivity].
  - simpl. destruct (IH z) as [y [Hy Hyq]].
    destruct (Q.max_spec x (qmaxl z l)) as [[_ Hm] | [_ Hm]].
    + exists y. split; [right; exact Hy | rewrite Hm; exact Hyq].
    + exists x. split; [left; reflexivity | symmetry; exact Hm].
Qed.

Lemma qmin_of_attained (l : list Q) :
  l <> [] -> exists y, In y l /\ y == qmin_of l.
Proof. destruct l; [congruence | intros _; apply qminl_attained]. Qed.

Lemma qmax_of_attained (l : list Q) :
  l <> [] -> exists y, In y l /\ y == qmax_of l.
Proof. destruct l; [congruence | intros _; apply qmaxl_attained]. Qed.

Lemma normalize_fin (mn mx a : Q) :
  ~ mx == mn ->
  normalize (Fin mn) (Fin mx) (Fin a) = Fin ((a - mn) / (mx - mn) * 100).
Proof.
  intros Hne. unfold normalize, fsub. cbn [fneg fadd].
  rewrite fdiv_fin; [reflexivity | lra].
Qed.

(** The weighted sums of a table's own rows, as rationals. *)
Lemma rule_scores_fin (df : DataFrame) :
  exists qs, rule_scores df = map Fin qs /\ length qs = length df.
Proof.
  unfold rule_scores.
  assert (Hall : forall r, In r df -> exists q, rule_score df r = Fin q)
    by (intros r; apply rule_score_finite).
  revert Hall. generalize (rule_score df). intros f Hall.
  induction df as [| r df IH]; [exists []; split; reflexivity |].
  destruct (Hall r (or_introl eq_refl)) as [q Hq].
  destruct IH as [qs [Hqs Hlen]]; [intros r' Hr'; apply Hall; right; exact Hr' |].
  exists (q :: qs). simpl. rewrite Hq, Hqs, Hlen. split; reflexivity.
Qed.

Lemma scaled_ratio_bounds (mn mx a : Q) :
  mn < mx -> mn <= a <= mx -> 0 <= (a - mn) / (mx - mn) * 100 <= 100.
Proof.
  intros Hlt [Hlo Hhi].
  assert (Hpos : 0 < mx - mn) by lra.
  set (t := (a - mn) / (mx - mn)).
  assert (Ht0 : 0 <= t) by (apply Qle_shift_div_l; [exact Hpos | lra]).
  assert (Ht1 : t <= 1) by (apply Qle_shift_div_r; [exact Hpos | lra]).
  lra.
Qed.

Lemma scaled_ratio_mono (mn mx a b : Q) :
  mn < mx -> a <= b ->
  (a - mn) / (mx - mn) * 100 <= (b - mn) / (mx - mn) * 100.
Proof.
  intros Hlt Hab.
  assert (Hinv : 0 <= / (mx - mn)) by (apply Qinv_le_0_compat; lra).
  unfold Qdiv. apply Qmult_le_compat_r; [| discriminate].
  apply Qmult_le_compat_r; [lra | exact Hinv].
Qed.

(** X6.  When the weighted sums of a table differ, normalization keeps
    their order: of two rows of the table, the one with the larger weighted
    sum gets the larger (or an equal) label, and both labels are numbers in
    [[0, 100]].  Nothing is assumed about the signs of the entries. *)
Theorem normalize_keeps_order (df : DataFrame) (r1 r2 : Row) (a b : Q) :
  In r1 df -> In r2 df ->
  ~ feq (smax (rule_scores df)) (smin (rule_scores df)) ->
  rule_score df r1 = Fin a -> rule_score df r2 = Fin b -> a <= b ->
  exists x y,
    normalize (smin (rule_scores df)) (smax (rule_scores df)) (Fin a) = Fin x /\
    normalize (smin (rule_scores df)) (smax (rule_scores df)) (Fin b) = Fin y /\
    x <= y /\ 0 <= x /\ y <= 100.
Proof.
  intros Hr1 Hr2 Hspread Ha Hb Hab.
  destruct (rule_scores_fin df) as [qs [Hqs Hlen]].
  assert (Hne : qs <> []).
  { destruct qs; [| discriminate]. destruct df; [destruct Hr1 | discriminate]. }
  assert (Hina : In a qs).
  { apply (in_map (rule_score df)) in Hr1. fold (rule_scores df) in Hr1.
    rewrite Hqs, Ha in Hr1. apply in_map_iff in Hr1.
    destruct Hr1 as [q [Hq Hin]]. injection Hq as ->. exact Hin. }
  assert (Hinb : In b qs).
  { apply (in_map (rule_score df)) in Hr2. fold (rule_scores df) in Hr2.
    rewrite Hqs, Hb in Hr2. apply in_map_iff in Hr2.
    destruct Hr2 as [q [Hq Hin]]. injection Hq as ->. exact Hin. }
  rewrite Hqs in *. rewrite smin_of_fin, smax_of_fin in * by exact Hne.
  simpl in Hspread.
  pose proof (qmin_of_lower qs a Hina) as La.
  pose proof (qmax_of_upper qs a Hina) as Ua.
  pose proof (qmin_of_lower qs b Hinb) as Lb.
  pose proof (qmax_of_upper qs b Hinb) as Ub.
  assert (Hlt : qmin_of qs < qmax_of qs).
  { destruct (Qlt_le_dec (qmin_of qs) (qmax_of qs)) as [H | H];
      [exact H | exfalso; apply Hspread; lra]. }
  rewrite !normalize_fin by exact Hspread.
  eexists. eexists. split; [reflexivity |]. split; [reflexivity |].
  split; [apply scaled_ratio_mono; assumption |].
  split; [apply scaled_ratio_bounds; [exact Hlt | split; assumption] |].
  apply scaled_ratio_bounds; [exact Hlt | split; assumption].
Qed.

(** X7.  When the weighted sums of a table differ, the labels reach both
    ends of the range: some row is labelled 0 and some row 100. *)
Theorem labels_reach_both_ends (df : DataFrame) :
  ~ feq (smax (rule_scores df)) (smin (rule_scores df)) ->
  (exists x, In x (calculate_rule_based_score df) /\ feq x (Fin 0)) /\
  (exists x, In x (calculate_rule_based_score df) /\ feq x (Fin 100)).
Proof.
  intros Hspread.
  destruct (rule_scores_fin df) as [qs [Hqs Hlen]].
  assert (Hne : qs <> []).
  { destruct qs; [| discriminate]. exfalso. apply Hspread.
    rewrite Hqs. exact I. }
  unfold calculate_rule_based_score. rewrite Hqs in *.
  rewrite smin_of_fin, smax_of_fin in * by exact Hne. simpl in Hspread.
  destruct (qmin_of_attained qs Hne) as [lo [Hlo Hloq]].
  destruct (qmax_of_attained qs Hne) as [hi [Hhi Hhiq]].
  split.
  - exists (normalize (Fin (qmin_of qs)) (Fin (qmax_of qs)) (Fin lo)).
    split; [apply in_map, in_map; exact Hlo |].
    rewrite normalize_fin by exact Hspread. simpl.
    rewrite Hloq. field. lra.
  - exists (normalize (Fin (qmin_of qs)) (Fin (qmax_of qs)) (Fin hi)).
    split; [apply in_map, in_map; exact Hhi |].
    rewrite normalize_fin by exact Hspread. simpl.
    rewrite Hhiq. field. lra.
Qed.

End NormalizeFacts.

Lemma spread_table3 :
  ~ feq (smax (rule_scores Sample.table3)) (smin (rule_scores Sample.table3)).
Proof.
  intros Heq. apply feq_feqb in Heq.
  assert (Hb : feqb (smax (rule_scores Sample.table3))
                 (smin (rule_scores Sample.table3)) = false)
    by (vm_compute; reflexivity).
  rewrite Hb in Heq. discriminate Heq.
Defined.

Lemma labels_reach_both_ends_witness :
  (exists x, In x (calculate_rule_based_score Sample.table3) /\ feq x (Fin 0)) /\
  (exists x, In x (calculate_rule_based_score Sample.table3) /\ feq x (Fin 100)).
Proof. exact (labels_reach_both_ends Sample.table3 spread_table3). Defined.

Lemma normalize_keeps_order_witness :
  In (Sample.row 6000 5 2 10 1) Sample.table3 /\
  In (Sample.row 500 7 1 4 2) Sample.table3 /\
  q_rule_score Sample.table3 (Sample.row 6000 5 2 10 1)
  <= q_rule_score Sample.table3 (Sample.row 500 7 1 4 2) /\
  exists x y,
    normalize (smin (rule_scores Sample.table3)) (smax (rule_scores Sample.table3))
      (Fin (q_rule_score Sample.table3 (Sample.row 6000 5 2 10 1))) = Fin x /\
    normalize (smin (rule_scores Sample.table3)) (smax (rule_scores Sample.table3))
      (Fin (q_rule_score Sample.table3 (Sample.row 500 7 1 4 2))) = Fin y /\
    x <= y /\ 0 <= x /\ y <= 100.
Proof.
  assert (H1 : In (Sample.row 6000 5 2 10 1) Sample.table3)
    by (right; right; left; reflexivity).
  assert (H2 : In (Sample.row 500 7 1 4 2) Sample.table3)
    by (left; reflexivity).
  assert (Hab : q_rule_score Sample.table3 (Sample.row 6000 5 2 10 1)
                <= q_rule_score Sample.table3 (Sample.row 500 7 1 4 2))
    by (apply Qle_bool_iff; vm_compute; reflexivity).
  split; [exact H1 |]. split; [exact H2 |]. split; [exact Hab |].
  apply (normalize_keeps_order Sample.table3 _ _ _ _ H1 H2 spread_table3);
    [vm_compute; reflexivity | vm_compute; reflexivity | exact Hab].
Defined.

Section DominanceFacts.

Lemma qclip_mono (lo hi q1 q2 : Q) :
  q1 <= q2 -> qclip lo hi q1 <= qclip lo hi q2.
Proof.
  intros Hle. unfold qclip.
  apply Q.min_le_compat_r, Q.max_le_compat_r. exact Hle.
Qed.

Lemma ratio_mono (a b c : Q) : 0 < c -> a <= b -> a / c <= b / c.
Proof.
  intros Hc Hab. unfold Qdiv. apply Qmult_le_compat_r; [exact Hab |].
  apply Qinv_le_0_compat. lra.
Qed.

(** X8.  In a table with at least one row and no negative distance or
    fault count, a row that is no farther, no less experienced, no more
    tired, of no lower severity and of no lower past performance than
    another has a weighted rule score that is not lower. *)
Theorem dominating_row_scores_no_lower (df : DataFrame) (r1 r2 : Row) :
  df <> [] ->
  (forall r, In r df -> 0 <= distance_m r /\ (0 <= fault_history r)%Z) ->
  distance_m r1 <= distance_m r2 ->
  (fault_history r2 <= fault_history r1)%Z ->
  fatigue_h r1 <= fatigue_h r2 ->
  (fault_severity r2 <= fault_severity r1)%Z ->
  past_perf r2 <= past_perf r1 ->
  exists a b,
    rule_score df r1 = Fin a /\ rule_score df r2 = Fin b /\ b <= a.
Proof.
  intros Hne Hpos Hd Hh Hf Hs Hp.
  exists (q_rule_score df r1), (q_rule_score df r2).
  split; [apply rule_score_closed; assumption |].
  split; [apply rule_score_closed; assumption |].
  pose proof (max_distance_eps_pos df Hne Hpos) as Hcd.
  pose proof (max_history_eps_pos df Hne Hpos) as Hch.
  assert (Sd : q_dist_score df r2 <= q_dist_score df r1).
  { unfold q_dist_score. apply qclip_mono.
    pose proof (ratio_mono _ _ _ Hcd Hd). lra. }
  assert (Sh : q_fh_score df r2 <= q_fh_score df r1).
  { unfold q_fh_score. apply qclip_mono. apply ratio_mono; [exact Hch |].
    rewrite <- Zle_Qle. exact Hh. }
  assert (Sf : q_fatigue_score r2 <= q_fatigue_score r1).
  { unfold q_fatigue_score. apply qclip_mono.
    assert (H24 : fatigue_h r1 / 24 <= fatigue_h r2 / 24)
      by (apply ratio_mono; [reflexivity | exact Hf]).
    lra. }
  assert (Ss : q_severity_score r2 <= q_severity_score r1).
  { unfold q_severity_score. apply ratio_mono; [reflexivity |].
    rewrite <- Zle_Qle. exact Hs. }
  assert (Sp : q_perf_score r2 <= q_perf_score r1)
    by (unfold q_perf_score; apply ratio_mono; [reflexivity | exact Hp]).
  unfold q_rule_score, w_distance, w_fault_history, w_fatigue, w_severity,
    w_perf. lra.
Qed.

(** X9.  In such a table, a row whose severity lies in [[0, 3]] and whose
    past performance lies in [[0, 10]] has a weighted rule score in
    [[0, 1]]: the five weights add up to one and every sub-score lies in
    [[0, 1]]. *)
Theorem rule_score_in_unit_interval (df : DataFrame) (r : Row) :
  df <> [] ->
  (forall r, In r df -> 0 <= distance_m r /\ (0 <= fault_history r)%Z) ->
  (0 <= fault_severity r <= 3)%Z ->
  0 <= past_perf r <= 10 ->
  exists q, rule_score df r = Fin q /\ 0 <= q <= 1.
Proof.
  intros Hne Hpos [Hs0 Hs3] [Hp0 Hp10].
  exists (q_rule_score df r).
  split; [apply rule_score_closed; assumption |].
  assert (Bd : 0 <= q_dist_score df r <= 1) by (apply qclip_bounds; discriminate).
  assert (Bh : 0 <= q_fh_score df r <= 1) by (apply qclip_bounds; discriminate).
  assert (Bf : 0 <= q_fatigue_score r <= 1) by (apply qclip_bounds; discriminate).
  assert (Bs : 0 <= q_severity_score r <= 1).
  { unfold q_severity_score. rewrite Zle_Qle in Hs0, Hs3.
    change (inject_Z 0) with 0 in Hs0. change (inject_Z 3) with 3 in Hs3.
    split; [apply Qle_shift_div_l; [reflexivity | lra]
           | apply Qle_shift_div_r; [reflexivity | lra]]. }
  assert (Bp : 0 <= q_perf_score r <= 1).
  { unfold q_perf_score.
    split; [apply Qle_shift_div_l; [reflexivity | lra]
           | apply Qle_shift_div_r; [reflexivity | lra]]. }
  unfold q_rule_score, w_distance, w_fault_history, w_fatigue, w_severity,
    w_perf. lra.
Qed.

End DominanceFacts.

Lemma table3_nonneg :
  forall r, In r Sample.table3 -> 0 <= distance_m r /\ (0 <= fault_history r)%Z.
Proof.
  intros r [<- | [<- | [<- | []]]]; split;
    solve [ apply Qle_bool_iff; reflexivity | simpl; lia ].
Defined.

Lemma dominating_row_scores_no_lower_witness :
  exists a b,
    rule_score Sample.table3 (Sample.row 500 7 1 4 2) = Fin a /\
    rule_score Sample.table3 (Sample.row 2500 6 0 6 2) = Fin b /\ b <= a.
Proof.
  apply (dominating_row_scores_no_lower Sample.table3
           (Sample.row 500 7 1 4 2) (Sample.row 2500 6 0 6 2)).
  - discriminate.
  - exact table3_nonneg.
  - apply Qle_bool_iff. reflexivity.
  - simpl. lia.
  - apply Qle_bool_iff. reflexivity.
  - simpl. lia.
  - apply Qle_bool_iff. reflexivity.
Defined.

Lemma rule_score_in_unit_interval_witness :
  exists q, rule_score Sample.table3 (Sample.row 500 7 1 4 2) = Fin q /\ 0 <= q <= 1.
Proof.
  apply (rule_score_in_unit_interval Sample.table3 (Sample.row 500 7 1 4 2)).
  - discriminate.
  - exact table3_nonneg.
  - simpl. lia.
  - split; apply Qle_bool_iff; reflexivity.
Defined.

(* ===================================================================== *)
(** * Further properties of request validation *)
(* ===================================================================== *)

Section ValidationExact.
Import Schemas.

Lemma Qle_bool_false_lt (a b : Q) : Qle_bool a b = false -> b < a.
Proof.
  intros Hf. apply Qnot_le_lt. intros Hle.
  apply Qle_bool_iff in Hle. congruence.
Qed.

Lemma inject_Z_lt_inv (x y : Z) : inject_Z x < inject_Z y -> (x < y)%Z.
Proof. intros Hlt. rewrite Zlt_Qlt. exact Hlt. Qed.

(** A field that fails the check of its declaration lies outside its
    documented bounds. *)
Lemma failing_field_offends (f : FieldInfo) (c : CandidateRequest) :
  In f candidate_fields -> field_ok f c = false ->
  Offending (field_name f) c.
Proof.
  intros Hin Hbad. unfold candidate_fields in Hin.
  destruct Hin as [<- | [<- | [<- | [<- | [<- | [<- | []]]]]]];
    unfold field_ok in Hbad;
    cbn [field_ge field_le field_value field_name ge_ok le_ok] in *;
    rewrite ?andb_true_r in Hbad;
    try (apply andb_false_iff in Hbad; destruct Hbad as [Hbad | Hbad]);
    apply Qle_bool_false_lt in Hbad.
  - apply distance_m_negative. exact Hbad.
  - apply distance_cat_below. apply inject_Z_lt_inv. exact Hbad.
  - apply distance_cat_above. apply inject_Z_lt_inv. exact Hbad.
  - apply past_perf_below. exact Hbad.
  - apply past_perf_above. exact Hbad.
  - apply fault_history_negative. apply inject_Z_lt_inv. exact Hbad.
  - apply fatigue_h_below. exact Hbad.
  - apply fatigue_h_above. exact Hbad.
  - apply fault_severity_below. apply inject_Z_lt_inv. exact Hbad.
  - apply fault_severity_above. apply inject_Z_lt_inv. exact Hbad.
Qed.

Lemma validate_candidate_iff (name : string) (c : CandidateRequest) :
  In name (validate_candidate c) <-> Offending name c.
Proof.
  split; [| apply validate_candidate_names].
  unfold validate_candidate. intros Hin. apply in_map_iff in Hin.
  destruct Hin as [f [<- Hf]].
  apply list_elem_of_In, list_elem_of_filter in Hf. destruct Hf as [Hbad Hin].
  apply failing_field_offends; [apply list_elem_of_In; exact Hin | exact Hbad].
Qed.

(** X10.  The validation of a candidate is exact: it names a field if and
    only if the value of that field lies outside its documented bounds.  No
    candidate within bounds is refused, and no field is named without
    cause. *)
Theorem validate_candidate_exact (name : string) (c : CandidateRequest) :
  In name (validate_candidate c) <-> Offending name c.
Proof.
  split.
  - unfold validate_candidate. intros Hin. apply in_map_iff in Hin.
    destruct Hin as [f [<- Hf]].
    apply list_elem_of_In, list_elem_of_filter in Hf.
    destruct Hf as [Hbad Hin].
    apply failing_field_offends; [apply list_elem_of_In; exact Hin | exact Hbad].
  - intros Hoff.
    destruct (offending_field_fails name c Hoff) as [f [Hin [<- Hbad]]].
    unfold validate_candidate. apply in_map.
    apply list_elem_of_In, list_elem_of_filter. split; [exact Hbad |].
    apply list_elem_of_In. exact Hin.
Qed.

Lemma validate_items_nil (cs : list CandidateRequest) :
  forall k,
    validate_items k cs = [] <->
    (forall c, In c cs -> validate_candidate c = []).
Proof.
  induction cs as [| c cs IH]; intros k; simpl.
  - split; [intros _ c [] | reflexivity].
  - split.
    + intros Hnil. apply app_eq_nil in Hnil. destruct Hnil as [Hc Hrest].
      intros c' [<- | Hin].
      * destruct (validate_candidate c); [reflexivity | discriminate].
      * apply (proj1 (IH (S k)) Hrest). exact Hin.
    + intros Hall. rewrite (Hall c (or_introl eq_refl)). simpl.
      apply IH. intros c' Hin. apply Hall. right. exact Hin.
Qed.

End ValidationExact.

Section ValidationPass.
Context `{NR : NumpyRandom} `{SK : !Sklearn}.
Import Schemas.

(** X11.  A predict request passes validation exactly when it has at least
    one candidate and no field of any candidate lies outside its bounds;
    such a request reaches the handler, whose answer is the answer of the
    endpoint. *)
Theorem valid_request_reaches_handler
    (model : DispatchModel.t) (body : list CandidateRequest) :
  (validate_predict_request body = [] <->
   body <> [] /\ forall c name, In c body -> ~ Offending name c) /\
  (validate_predict_request body = [] ->
   Main.api_predict model body = Main.predict model body).
Proof.
  split.
  - unfold validate_predict_request. split.
    + intros Hnil. apply app_eq_nil in Hnil. destruct Hnil as [Hlen Hitems].
      split; [intros ->; discriminate Hlen |].
      intros c name Hin Hoff. apply validate_candidate_iff in Hoff.
      rewrite (proj1 (validate_items_nil body 0) Hitems c Hin) in Hoff.
      destruct Hoff.
    + intros [Hne Hok].
      destruct body as [| c0 body]; [congruence |]. cbn [length Nat.eqb app].
      apply validate_items_nil. intros c Hin.
      destruct (validate_candidate c) as [| name names] eqn:Hv; [reflexivity |].
      exfalso. apply (Hok c name Hin). apply validate_candidate_iff.
      rewrite Hv. left. reflexivity.
  - intros Hv. unfold Main.api_predict. rewrite Hv. reflexivity.
Qed.

End ValidationPass.

Lemma valid_request_reaches_handler_witness :
  Schemas.validate_predict_request [Sample.candidate_a; Sample.candidate_b] = [] /\
  Main.api_predict Sample.loaded_store [Sample.candidate_a; Sample.candidate_b]
  = Main.predict Sample.loaded_store [Sample.candidate_a; Sample.candidate_b].
Proof.
  split; [reflexivity |].
  exact (proj2 (valid_request_reaches_handler Sample.loaded_store
                  [Sample.candidate_a; Sample.candidate_b]) eq_refl).
Defined.

(* ===================================================================== *)
(** * Further properties of training runs *)
(* ===================================================================== *)

Section RunFacts.
Context `{NR : NumpyRandom} `{SK : !Sklearn} `{JL : !Joblib}.
Variable dir_chain : string -> list string.

Lemma keeps_dirs_bind {A B : Type} (m : M World A) (k : A -> M World B) :
  keeps_dirs m -> (forall a, keeps_dirs (k a)) -> keeps_dirs (bind m k).
Proof.
  intros Hm Hk w. unfold bind. specialize (Hm w).
  destruct (m w) as [[a | e] w1]; simpl in *.
  - rewrite Hk. exact Hm.
  - exact Hm.
Qed.

Lemma keeps_dirs_ret {A : Type} (a : A) : keeps_dirs (ret a).
Proof. intros w. reflexivity. Qed.

Lemma keeps_dirs_lift {A : Type} (o : outcome A) : keeps_dirs (lift o).
Proof. intros w. reflexivity. Qed.

Lemma keeps_dirs_seed (s : option Z) : keeps_dirs (np_random_seed s).
Proof.
  intros w. unfold np_random_seed.
  destruct s as [s |]; [destruct (seed_in_range s) |]; reflexivity.
Qed.

Lemma keeps_dirs_random_state {A : Type} (s : option Z)
    (call : rng -> outcome A * rng) :
  keeps_dirs (with_random_state s call).
Proof.
  intros w. unfold with_random_state.
  destruct s as [s |]; [destruct (seed_in_range s); reflexivity |].
  destruct (call (np_random w)). reflexivity.
Qed.

Lemma keeps_dirs_draw {A : Type} (draw : rng -> A * rng) (n : Z) :
  keeps_dirs (draw_size draw n).
Proof.
  intros w. unfold draw_size. destruct (n <? 0)%Z; [reflexivity |].
  destruct (sample draw (Z.to_nat n) (np_random w)). reflexivity.
Qed.

Lemma generate_keeps_dirs (n : Z) (seed : option Z) :
  keeps_dirs (generate_synthetic_data n seed).
Proof.
  unfold generate_synthetic_data.
  repeat (apply keeps_dirs_bind;
          [first [apply keeps_dirs_seed | apply keeps_dirs_draw] | intros ?]).
  apply keeps_dirs_ret.
Qed.

(** The evaluation creates no directory. *)
Lemma train_model_evaluate_keeps_dirs (n : Z) (seed : option Z) :
  keeps_dirs (train_model_evaluate n seed).
Proof.
  unfold train_model_evaluate.
  apply keeps_dirs_bind; [apply generate_keeps_dirs | intros df].
  repeat (apply keeps_dirs_bind;
          [first [apply keeps_dirs_random_state | apply keeps_dirs_lift]
          | intros ?]).
  apply keeps_dirs_ret.
Qed.

(** What the fitting part returns and what it leaves behind. *)
Lemma train_model_fit_bundle (n : Z) (seed : option Z) (mp : option string) (w w1 : World)
    (md : ModelData) (p : string) :
  train_model_fit dir_chain n seed mp w = (Return (md, p), w1) ->
  p = resolved_path mp /\
  md_features md = feature_columns /\ md_random_seed md = seed /\
  md_n_estimators md = 200%nat /\
  disk w1 = disk w /\
  dirs w1 = dirs w ∪ list_to_set (dir_chain p) /\
  exists ev w0,
    train_model_evaluate n seed w = (Return ev, w0) /\ md = bundle_of seed ev.
Proof.
  intros Hfit.
  pose proof (train_model_fit_keeps_disk dir_chain n seed mp w) as Hd.
  rewrite Hfit in Hd. cbn [snd] in Hd.
  pose proof (train_model_evaluate_keeps_dirs n seed w) as Hg.
  revert Hfit. rewrite train_model_fit_run.
  destruct (train_model_evaluate n seed w) as [[ev | e] w0]; [| discriminate].
  intros Heq. injection Heq as <- <- <-. cbn [snd] in Hg.
  unfold mkdir_parents, modify. cbn [snd dirs set_dirs]. rewrite Hg.
  repeat split; try reflexivity; [exact Hd |].
  exists ev, w0. split; reflexivity.
Qed.

(** A fitting part that raises has created no directory. *)
Lemma train_model_fit_raise_keeps_dirs (n : Z) (seed : option Z) (mp : option string)
    (w w1 : World) (e : exn) :
  train_model_fit dir_chain n seed mp w = (Raise e, w1) -> dirs w1 = dirs w.
Proof.
  pose proof (train_model_evaluate_keeps_dirs n seed w) as Hg.
  rewrite train_model_fit_run.
  destruct (train_model_evaluate n seed w) as [[ev | e0] w0]; [discriminate |].
  intros Heq. injection Heq as _ <-. exact Hg.
Qed.

(** X12.  A run of [train_model] that returns has put the complete image
    of its bundle at the path it returns and changed no other file.  The
    bundle is the one built from the evaluation of this run: it records the
    six feature columns in order, the seed as it was given, 200 estimators
    and the sizes of the two parts of the split, and the returned dictionary
    repeats the bundle's model, features and metrics. *)
Theorem train_model_result_matches_artifact
    (n : Z) (seed : option Z) (mp : option string) (w w' : World) (out : TrainOutput) :
  train_model dir_chain n seed mp w = (Return out, w') ->
  exists (md : ModelData) (ev : Evaluation) (w0 : World),
    train_model_evaluate n seed w = (Return ev, w0) /\
    md = bundle_of seed ev /\
    disk w' = <[out_model_path out := pickle md]> (disk w) /\
    (forall p, p <> out_model_path out -> disk w' !! p = disk w !! p) /\
    out_features out = feature_columns /\
    md_features md = feature_columns /\
    md_model md = out_model out /\
    md_mae md = out_mae out /\ md_r2 md = out_r2 out /\
    md_random_seed md = seed /\ md_n_estimators md = 200%nat /\
    md_training_samples md = ev_training_samples ev /\
    md_test_samples md = ev_test_samples ev.
Proof.
  rewrite train_model_run.
  destruct (train_model_fit dir_chain n seed mp w) as [[[md p] | e] w1] eqn:Hfit;
    [| discriminate].
  intros Heq. injection Heq as <- <-.
  destruct (train_model_fit_bundle _ _ _ _ _ _ _ Hfit)
    as [Hp [Hf [Hs [He [Hd [Hdirs [ev [w0 [Hev Hmd]]]]]]]]].
  exists md, ev, w0. cbn [out_model_path out_features out_model out_mae out_r2
                          disk dirs set_disk].
  rewrite Hd.
  split; [exact Hev |]. split; [exact Hmd |].
  split; [reflexivity |].
  split; [intros p' Hne; apply lookup_insert_ne; congruence |].
  subst md. repeat split; assumption.
Qed.

Lemma train_model_raise_keeps_files
    (n : Z) (seed : option Z) (mp : option string) (w w' : World) (e : exn) :
  train_model dir_chain n seed mp w = (Raise e, w') ->
  disk w' = disk w /\ dirs w' = dirs w.
Proof.
  intros Hraise.
  split; [exact (train_model_raise_keeps_disk dir_chain _ _ _ _ _ _ Hraise) |].
  rewrite train_model_run in Hraise.
  destruct (train_model_fit dir_chain n seed mp w) as [[[md p] | e1] w1] eqn:Hfit;
    [discriminate |].
  injection Hraise as _ <-.
  exact (train_model_fit_raise_keeps_dirs _ _ _ _ _ _ Hfit).
Qed.


(** X13.  When [train_model] raises before it reaches the file system
    (while it generates the data, labels them, splits, fits or evaluates:
    a refused seed, a negative size, labels that are not numbers), the
    exception leaves [train_model] as it is, no file has been written and
    no directory created. *)
Theorem failed_evaluation_leaves_files
    (n : Z) (seed : option Z) (mp : option string) (w w0 : World) (e : exn) :
  train_model_evaluate n seed w = (Raise e, w0) ->
  train_model dir_chain n seed mp w = (Raise e, w0) /\
  disk w0 = disk w /\ dirs w0 = dirs w.
Proof.
  intros Hev.
  pose proof (train_model_evaluate_keeps_disk n seed w) as Hd.
  pose proof (train_model_evaluate_keeps_dirs n seed w) as Hg.
  rewrite Hev in Hd, Hg. cbn [snd] in Hd, Hg.
  rewrite train_model_run, train_model_fit_run, Hev.
  repeat split; assumption.
Qed.


End RunFacts.

Lemma train_model_result_matches_artifact_witness :
  exists (out : @TrainOutput Sample.random Sample.sklearn)
         (w' : @World Sample.random)
         (md : @ModelData Sample.random Sample.sklearn),
    train_model (JL := Sample.joblib) Sample.dir_chain 10 (Some 7%Z) None Sample.world0
    = (Return out, w') /\
    disk w' = <[out_model_path out := @pickle Sample.random Sample.sklearn
                                        Sample.joblib md]>
                (disk Sample.world0) /\
    out_features out = feature_columns /\
    md_training_samples md = 8%nat /\ md_test_samples md = 2%nat.
Proof.
  destruct (train_model (JL := Sample.joblib) Sample.dir_chain 10 (Some 7%Z) None
              Sample.world0) as [[out | e] w'] eqn:Hrun.
  - destruct (train_model_result_matches_artifact (JL := Sample.joblib)
                Sample.dir_chain 10 (Some 7%Z) None Sample.world0 w' out Hrun)
      as [md [ev [w0 [Hev [Hmd [Hd [_ [Hf [_ [_ [_ [_ [_ [_ [Htr Hte]]]]]]]]]]]]]]].
    exists out, w', md. split; [reflexivity |]. split; [exact Hd |].
    split; [exact Hf |].
    assert (Hsizes :
      match fst (train_model_evaluate (NR := Sample.random)
                   (SK := Sample.sklearn) 10 (Some 7%Z) Sample.world0) with
      | Return ev0 =>
          ev_training_samples ev0 = 8%nat /\ ev_test_samples ev0 = 2%nat
      | Raise _ => False
      end) by (vm_compute; split; reflexivity).
    rewrite Hev in Hsizes. cbn [fst] in Hsizes.
    rewrite Htr, Hte. exact Hsizes.
  - exfalso.
    assert (Hok : is_return (fst (train_model (JL := Sample.joblib)
                                    Sample.dir_chain 10 (Some 7%Z) None Sample.world0))
                  = true) by (vm_compute; reflexivity).
    rewrite Hrun in Hok. discriminate Hok.
Defined.

Lemma failed_evaluation_leaves_files_witness :
  train_model_evaluate (NR := Sample.random) (SK := Sample.sklearn)
    10 (Some (-1)%Z) Sample.world0
  = (Raise (ValueError "Seed must be between 0 and 2**32 - 1"), Sample.world0) /\
  train_model (JL := Sample.joblib) Sample.dir_chain 10 (Some (-1)%Z) None
    Sample.world0
  = (Raise (ValueError "Seed must be between 0 and 2**32 - 1"), Sample.world0).
Proof.
  split; [reflexivity |].
  exact (proj1 (failed_evaluation_leaves_files (JL := Sample.joblib)
                  Sample.dir_chain 10 (Some (-1)%Z) None Sample.world0
                  Sample.world0
                  (ValueError "Seed must be between 0 and 2**32 - 1") eq_refl)).
Defined.


(* ===================================================================== *)
(** * Further properties of the training service and its endpoint *)
(* ===================================================================== *)

Section EndpointFacts.
Context `{NR : NumpyRandom} `{SK : !Sklearn} `{JL : !Joblib}.
Variable dir_chain : string -> list string.

(** X15.  Two calls of the service's [train] in a row, the first one from
    an idle service: whatever the first call did (returned a success or a
    failure dictionary), the second call is admitted and returns a
    dictionary too; neither raises, and the service keeps its path. *)
Theorem service_trains_again
    (n1 : Z) (seed1 : option Z) (n2 : Z) (seed2 : option Z)
    (self : TrainingService.t) (w : World) :
  TrainingService._training_in_progress self = false ->
  exists result1 result2 self2 w2,
    fst (TrainingService.train dir_chain n1 seed1 (self, w)) = Return result1 /\
    TrainingService.train dir_chain n2 seed2
      (snd (TrainingService.train dir_chain n1 seed1 (self, w)))
    = (Return result2, (self2, w2)) /\
    TrainingService._training_in_progress self2 = false /\
    TrainingService.model_path self2 = TrainingService.model_path self.
Proof.
  intros Hidle.
  rewrite (train_result dir_chain n1 seed1 self w Hidle).
  destruct (train_model dir_chain n1 seed1 (TrainingService.model_path self) w)
    as [[out1 | e1] w1]; cbn [fst snd];
    rewrite (train_result dir_chain n2 seed2
               (TrainingService.set_training_in_progress false self) w1 eq_refl);
    cbn [TrainingService.set_training_in_progress TrainingService.model_path];
    destruct (train_model dir_chain n2 seed2 (TrainingService.model_path self) w1)
      as [[out2 | e2] w2];
    do 4 eexists; repeat split.
Qed.

(** X16.  The train handler has three answers and no other.  With the
    flag set it answers 409 and changes nothing.  Otherwise it answers 200
    with the seed and size of the request when [train_model] returns, and
    500 with the text of the exception, the model store unchanged, when
    [train_model] raises.  Its generic [except Exception] branch is never
    taken, and in every case the flag and the configured paths are after
    the request what they were before. *)
Theorem train_handler_answers
    (request : Schemas.TrainRequest) (app : Main.App) :
  let run := Main.train dir_chain request app in
  let tm := train_model dir_chain (Schemas.n_samples request)
              (Schemas.random_seed request)
              (TrainingService.model_path (Main.training_service app))
              (Main.world app) in
  ((TrainingService.is_training (Main.training_service app) = true /\
    run = (Main.HTTPException Main.HTTP_409_CONFLICT
             "Training already in progress", app)) \/
   (TrainingService.is_training (Main.training_service app) = false /\
    exists out,
      fst tm = Return out /\
      fst run = Main.Ok (TrainingService.TrainSucceeded (out_mae out)
                           (out_r2 out) (out_model_path out) (out_features out)
                           (Schemas.n_samples request)
                           (Schemas.random_seed request)) /\
      Main.world (snd run) = snd tm) \/
   (TrainingService.is_training (Main.training_service app) = false /\
    exists e,
      fst tm = Raise e /\
      fst run = Main.HTTPException Main.HTTP_500_INTERNAL_SERVER_ERROR (str e) /\
      Main.model (snd run) = Main.model app /\
      Main.world (snd run) = snd tm)) /\
  TrainingService.is_training (Main.training_service (snd run))
  = TrainingService.is_training (Main.training_service app) /\
  TrainingService.model_path (Main.training_service (snd run))
  = TrainingService.model_path (Main.training_service app) /\
  Main.MODEL_PATH (snd run) = Main.MODEL_PATH app.
Proof.
  intros run tm. subst run tm. unfold Main.train.
  destruct (TrainingService.is_training (Main.training_service app)) eqn:Hflag.
  - split; [left; split; reflexivity |]. cbn [snd]. rewrite Hflag. auto.
  - unfold TrainingService.is_training in Hflag.
    rewrite (train_result dir_chain _ _ _ _ Hflag).
    destruct (train_model dir_chain _ _ _ _) as [[out | e] w'];
      cbn [TrainingService.success fst snd Main.training_service
           Main.MODEL_PATH Main.world Main.model
           TrainingService.is_training TrainingService.set_training_in_progress
           TrainingService._training_in_progress TrainingService.model_path].
    + split; [right; left; split; [reflexivity | exists out; auto] | auto].
    + split; [right; right; split; [reflexivity | exists e; auto] | auto].
Qed.

Lemma api_train_in_bounds (request : Schemas.TrainRequest) (app : Main.App) :
  (100 <= Schemas.n_samples request <= 100000)%Z ->
  Main.api_train dir_chain request app
  = (inr (fst (Main.train dir_chain request app)),
     snd (Main.train dir_chain request app)).
Proof.
  intros Hn. unfold Main.api_train, Schemas.validate_train_request.
  destruct (Z.leb_spec 100 (Schemas.n_samples request)); [| lia].
  destruct (Z.leb_spec (Schemas.n_samples request) 100000); [| lia].
  cbn [andb]. destruct (Main.train dir_chain request app). reflexivity.
Qed.

(** X17.  A train request whose [n_samples] lies outside [[100, 100000]]
    is refused before the handler runs, naming [n_samples], and leaves the
    application untouched; one within those bounds is handed to the
    handler whatever its seed, for [random_seed] carries no bound. *)
Theorem train_request_bounds (request : Schemas.TrainRequest) (app : Main.App) :
  ((Schemas.n_samples request < 100 \/ 100000 < Schemas.n_samples request)%Z ->
   Main.api_train dir_chain request app = (inl ["n_samples"], app)) /\
  ((100 <= Schemas.n_samples request <= 100000)%Z ->
   Main.api_train dir_chain request app
   = (inr (fst (Main.train dir_chain request app)),
      snd (Main.train dir_chain request app))).
Proof.
  unfold Main.api_train, Schemas.validate_train_request. split; intros Hn.
  - destruct (Z.leb_spec 100 (Schemas.n_samples request));
      destruct (Z.leb_spec (Schemas.n_samples request) 100000);
      try reflexivity; lia.
  - destruct (Z.leb_spec 100 (Schemas.n_samples request)); [| lia].
    destruct (Z.leb_spec (Schemas.n_samples request) 100000); [| lia].
    cbn [andb]. destruct (Main.train dir_chain request app). reflexivity.
Qed.

(** X18.  A train request with a valid size and an integer seed outside
    [[0, 2**32 - 1]] passes validation and fails in numpy's seeding: on an
    idle service the endpoint answers 500 with numpy's message, and model
    store, generator, files and directories are as before. *)
Theorem unseedable_request_fails_cleanly
    (request : Schemas.TrainRequest) (app : Main.App) :
  (100 <= Schemas.n_samples request <= 100000)%Z ->
  ~ valid_seed (Schemas.random_seed request) ->
  TrainingService.is_training (Main.training_service app) = false ->
  fst (Main.api_train dir_chain request app)
  = inr (Main.HTTPException Main.HTTP_500_INTERNAL_SERVER_ERROR
           "Seed must be between 0 and 2**32 - 1") /\
  Main.model (snd (Main.api_train dir_chain request app)) = Main.model app /\
  Main.world (snd (Main.api_train dir_chain request app)) = Main.world app /\
  TrainingService.is_training
    (Main.training_service (snd (Main.api_train dir_chain request app))) = false.
Proof.
  intros Hn Hseed Hidle.
  rewrite (api_train_in_bounds request app Hn). cbn [fst snd].
  assert (Htm : train_model dir_chain (Schemas.n_samples request)
                  (Schemas.random_seed request)
                  (TrainingService.model_path (Main.training_service app))
                  (Main.world app)
                = (Raise (ValueError "Seed must be between 0 and 2**32 - 1"),
                   Main.world app)).
  { unfold train_model, train_model_fit, train_model_evaluate, bind.
    rewrite (generate_refused_seed _ _ _ Hseed). reflexivity. }
  unfold Main.train. rewrite Hidle.
  unfold TrainingService.is_training in Hidle.
  rewrite (train_result dir_chain _ _ _ _ Hidle), Htm.
  cbn. auto.
Qed.

End EndpointFacts.

Lemma service_trains_again_witness :
  TrainingService._training_in_progress (TrainingService.init None) = false /\
  exists result1 result2 self2 w2,
    fst (TrainingService.train (JL := Sample.joblib) Sample.dir_chain 10
           (Some (-1)%Z) (TrainingService.init None, Sample.world0))
    = Return result1 /\
    TrainingService.train (JL := Sample.joblib) Sample.dir_chain 10 (Some 7%Z)
      (snd (TrainingService.train (JL := Sample.joblib) Sample.dir_chain 10
              (Some (-1)%Z) (TrainingService.init None, Sample.world0)))
    = (Return result2, (self2, w2)) /\
    TrainingService._training_in_progress self2 = false /\
    TrainingService.model_path self2 = None.
Proof.
  split; [reflexivity |].
  exact (service_trains_again (JL := Sample.joblib) Sample.dir_chain
           10 (Some (-1)%Z) 10 (Some 7%Z) (TrainingService.init None)
           Sample.world0 eq_refl).
Defined.

Lemma train_request_bounds_witness :
  (50 < 100 \/ 100000 < 50)%Z /\
  Main.api_train (JL := Sample.joblib) Sample.dir_chain
    {| Schemas.n_samples := 50; Schemas.random_seed := Some 42%Z |} Sample.app0
  = (inl ["n_samples"], Sample.app0).
Proof.
  assert (Hn : (50 < 100 \/ 100000 < 50)%Z) by (left; reflexivity).
  split; [exact Hn |].
  exact (proj1 (train_request_bounds (JL := Sample.joblib) Sample.dir_chain
                  {| Schemas.n_samples := 50; Schemas.random_seed := Some 42%Z |}
                  Sample.app0) Hn).
Defined.

Lemma unseedable_request_fails_cleanly_witness :
  (100 <= Schemas.n_samples Sample.bad_seed_request <= 100000)%Z /\
  ~ valid_seed (Schemas.random_seed Sample.bad_seed_request) /\
  fst (Main.api_train (JL := Sample.joblib) Sample.dir_chain
         Sample.bad_seed_request Sample.app0)
  = inr (Main.HTTPException 500 "Seed must be between 0 and 2**32 - 1") /\
  Main.model (snd (Main.api_train (JL := Sample.joblib) Sample.dir_chain
                     Sample.bad_seed_request Sample.app0))
  = Sample.loaded_store.
Proof.
  assert (Hn : (100 <= Schemas.n_samples Sample.bad_seed_request <= 100000)%Z)
    by (split; discriminate).
  assert (Hs : ~ valid_seed (Schemas.random_seed Sample.bad_seed_request))
    by (intros [H0 _]; apply H0; reflexivity).
  split; [exact Hn |]. split; [exact Hs |].
  pose proof (unseedable_request_fails_cleanly (JL := Sample.joblib)
                Sample.dir_chain Sample.bad_seed_request Sample.app0
                Hn Hs eq_refl) as [Hr [Hm _]].
  split; [exact Hr | exact Hm].
Defined.

Section FlagFacts.
Import TrainingService.

Lemma step_sys_keeps_holder (i : nat) (s : Sys) :
  flag_is_held s -> flag_is_held (step_sys i s).
Proof.
  intros Hinv. destruct s as [f l].
  destruct (l !! i) as [p |] eqn:Hp;
    [| rewrite step_sys_absent by exact Hp; exact Hinv].
  assert (Hlen : (i < length l)%nat) by (eapply lookup_lt_Some; exact Hp).
  rewrite (step_sys_at _ _ _ _ Hp). unfold flag_is_held in *. cbn [fst snd] in *.
  destruct p; cbn [step_caller fst snd].
  - destruct f; cbn [fst snd]; [| discriminate].
    intros _. destruct (Hinv eq_refl) as [j [q [Hq Hh]]].
    exists j, q. split; [| exact Hh].
    rewrite list_lookup_insert_ne; [exact Hq |].
    intros ->. rewrite Hp in Hq. injection Hq as <-. discriminate Hh.
  - intros _. exists i, PcTrainModel.
    split; [apply list_lookup_insert_eq; exact Hlen | reflexivity].
  - intros _. exists i, PcFinally.
    split; [apply list_lookup_insert_eq; exact Hlen | reflexivity].
  - discriminate.
  - rewrite list_insert_id by exact Hp. exact Hinv.
  - rewrite list_insert_id by exact Hp. exact Hinv.
Qed.

Lemma run_schedule_keeps_holder (sched : list nat) :
  forall s, flag_is_held s -> flag_is_held (run_schedule sched s).
Proof.
  induction sched as [| i sched IH]; intros s Hinv; [exact Hinv |].
  unfold run_schedule. cbn [fold_left]. apply IH.
  apply step_sys_keeps_holder. exact Hinv.
Qed.

(** X19.  However the steps of any number of callers of [train] are
    interleaved, a set flag always belongs to a caller that is still
    between setting and clearing it; so once every call is over the flag is
    clear: no interleaving leaves the service refusing requests for
    good. *)
Theorem flag_never_stuck (callers : nat) (sched : list nat) :
  let s := run_schedule sched (false, replicate callers PcCheck) in
  (fst s = true -> exists i p, snd s !! i = Some p /\ holds_flag p = true) /\
  (Forall (fun p => finished p = true) (snd s) -> fst s = false).
Proof.
  intros s.
  assert (Hinv : flag_is_held s).
  { apply run_schedule_keeps_holder. intros Hf. discriminate Hf. }
  split; [exact Hinv |].
  intros Hdone. destruct (fst s) eqn:Hf; [exfalso | reflexivity].
  destruct (Hinv Hf) as [i [p [Hp Hh]]].
  eapply Forall_lookup_1 in Hdone; [| exact Hp].
  destruct p; discriminate.
Qed.

End FlagFacts.

Lemma flag_never_stuck_witness :
  fst (TrainingService.run_schedule [0; 0]%nat
         (false, replicate 1 TrainingService.PcCheck)) = true /\
  exists i p,
    snd (TrainingService.run_schedule [0; 0]%nat
           (false, replicate 1 TrainingService.PcCheck)) !! i = Some p /\
    TrainingService.holds_flag p = true.
Proof.
  split; [reflexivity |].
  exact (proj1 (flag_never_stuck 1 [0; 0]%nat) eq_refl).
Defined.

(* ===================================================================== *)
(** * Further properties of the predict handler *)
(* ===================================================================== *)

Section HandlerFacts.
Context `{NR : NumpyRandom} `{SK : !Sklearn}.
Import Schemas.

(** X20.  Whenever the model store's [predict] returns, the handler
    answers 200 and passes on the store's best index and per-candidate
    details unchanged; it returns one score per raw score, each within
    0.005 of the raw score it rounds. *)
Theorem handler_scores_near_raw
    (model : DispatchModel.t) (body : list CandidateRequest)
    (best : nat) (raw : list Q) (details : list PredictionResult) :
  DispatchModel.predict model (map dict body) = Return (best, raw, details) ->
  exists response,
    Main.predict model body = Main.Ok response /\
    best_index response = best /\
    predictions response = details /\
    length (scores response) = length raw /\
    (forall (i : nat) (x y : Q),
        nth_error raw i = Some x -> nth_error (scores response) i = Some y ->
        x - (1 # 200) <= y <= x + (1 # 200)).
Proof.
  intros Hp. unfold Main.predict. rewrite Hp.
  eexists. split; [reflexivity |]. cbn [best_index predictions scores].
  split; [reflexivity |]. split; [reflexivity |].
  split; [apply length_map |].
  intros i x y Hx Hy. rewrite nth_error_map, Hx in Hy.
  injection Hy as <-. apply round2_near.
Qed.

End HandlerFacts.

Lemma handler_scores_near_raw_witness :
  exists response,
    Main.predict Sample.loaded_store [Sample.candidate_a; Sample.candidate_b]
    = Main.Ok response /\
    Schemas.best_index response = 0%nat /\
    length (Schemas.scores response) = 2%nat.
Proof.
  destruct (DispatchModel.predict Sample.loaded_store
              (map Schemas.dict [Sample.candidate_a; Sample.candidate_b]))
    as [[[best raw] details] | e] eqn:Hp.
  - destruct (handler_scores_near_raw Sample.loaded_store
                [Sample.candidate_a; Sample.candidate_b] best raw details Hp)
      as [response [Hr [Hb [_ [Hlen _]]]]].
    exists response. split; [exact Hr |].
    assert (Hbest : fst (fst (best, raw, details)) = 0%nat /\
                    length (snd (fst (best, raw, details))) = 2%nat).
    { assert (Hc : match DispatchModel.predict Sample.loaded_store
                           (map Schemas.dict
                              [Sample.candidate_a; Sample.candidate_b]) with
                   | Return t => fst (fst t) = 0%nat /\
                                 length (snd (fst t)) = 2%nat
                   | Raise _ => False
                   end) by (vm_compute; split; reflexivity).
      rewrite Hp in Hc. exact Hc. }
    cbn [fst snd] in Hbest. destruct Hbest as [Hb0 Hl2].
    split; [rewrite Hb; exact Hb0 | rewrite Hlen; exact Hl2].
  - exfalso.
    assert (Hok : is_return (DispatchModel.predict Sample.loaded_store
                               (map Schemas.dict
                                  [Sample.candidate_a; Sample.candidate_b]))
                  = true) by (vm_compute; reflexivity).
    rewrite Hp in Hok. discriminate Hok.
Defined.
